(** * Beng-Eng-Translate: the translation worker (bot.py) and its
      supervisor (server.py)

    A shallow embedding of the two programs of the repository.

    - [Bot] embeds the three classes of [bot.py]: [TranslationProcessor],
      [TranscriptHandler] and [SessionTimeoutHandler], together with the
      [on_session_timeout] callback that [main] registers on the transport.
    - [Server] embeds the three POST handlers of [server.py]
      ([_start_bot], [_stop_bot], [_get_bot_logs]) and the log reader
      threads, over the two module-level dictionaries [active_processes]
      and [process_logs]; [Http] embeds [do_GET], [do_POST] and [cleanup].
    - [CheckStatus] embeds the check of the [.env] file of
      [check_status.py].

    Python [int]s are [Z], [str]s are [string] (the UTF-8 encoding of
    the text), lists are [list], dictionaries keyed by pid are [gmap Z],
    [None]-able values are [option].  What the operating system and the libraries answer to a
    handler (is the port bound, does [lsof] exist, did the child exit, ...)
    is an explicit input of the handler, and every call a handler makes to
    the outside is recorded, in order, in a trace. *)

From Stdlib Require Import ZArith String Ascii List DecimalString QArith.
From Stdlib Require Decimal DecimalPos.
From stdpp Require Import base option list gmap strings.

Local Open Scope Z_scope.

(* ===================================================================== *)
(** ** Python strings

    A [str] is kept as its UTF-8 encoding, one [ascii] per byte.         *)
(* ===================================================================== *)
Module Py.

(** [str(n)] for an [int]. *)
Definition str_of_int (n : Z) : string := NilZero.string_of_int (Z.to_int n).

Definition code (a : ascii) : Z := Z.of_N (N_of_ascii a).

(** A character of an encoded string is a byte that is not a
    continuation byte (0x80-0xbf) together with the continuation bytes
    that follow it. *)
Definition is_continuation (a : ascii) : bool :=
  (128 <=? code a) && (code a <=? 191).

Definition push_byte (c : ascii) (cs : list (list ascii)) : list (list ascii) :=
  match cs with
  | (d :: ds) :: rest =>
      if is_continuation d then (c :: d :: ds) :: rest else [c] :: cs
  | _ => [c] :: cs
  end.

(** The characters of a string, each as the bytes that encode it. *)
Definition characters (l : list ascii) : list (list ascii) :=
  foldr push_byte [] l.

(** [str.isspace] on a character of one byte: tab, line feed, vertical
    tab, form feed, carriage return, the four separators 0x1c-0x1f and the
    space. *)
Definition isspace (a : ascii) : bool :=
  ((9 <=? code a) && (code a <=? 13)) ||
  ((28 <=? code a) && (code a <=? 31)) ||
  (code a =? 32).

(** [str.isspace] on any character: besides the ones of one byte, U+0085
    and U+00A0 (c2 85, c2 a0), U+1680 (e1 9a 80), U+2000-U+200A, U+2028,
    U+2029 and U+202F (e2 80 80-8a, a8, a9, af), U+205F (e2 81 9f) and
    U+3000 (e3 80 80). *)
Definition isspace_char (ch : list ascii) : bool :=
  match ch with
  | [c] => isspace c
  | [a; b] => (code a =? 194) && ((code b =? 133) || (code b =? 160))
  | [a; b; c] =>
      ((code a =? 225) && (code b =? 154) && (code c =? 128))
      || ((code a =? 226) && (code b =? 128) &&
          (((128 <=? code c) && (code c <=? 138)) || (code c =? 168)
           || (code c =? 169) || (code c =? 175)))
      || ((code a =? 226) && (code b =? 129) && (code c =? 159))
      || ((code a =? 227) && (code b =? 128) && (code c =? 128))
  | _ => false
  end.

Fixpoint lstrip_chars (cs : list (list ascii)) : list (list ascii) :=
  match cs with
  | ch :: r => if isspace_char ch then lstrip_chars r else cs
  | [] => []
  end.

Definition strip_chars (l : list ascii) : list ascii :=
  concat (rev (lstrip_chars (rev (lstrip_chars (characters l))))).

(** [s.strip()] *)
Definition strip (s : string) : string :=
  string_of_list_ascii (strip_chars (list_ascii_of_string s)).

(** [s.split(sep)] for a one-character separator: never an empty list. *)
Fixpoint split (sep : ascii) (s : string) : list string :=
  match s with
  | EmptyString => [EmptyString]
  | String c r =>
      if Ascii.eqb c sep then EmptyString :: split sep r
      else match split sep r with
           | h :: t => String c h :: t
           | [] => [String c EmptyString]
           end
  end.

Definition newline : ascii := ascii_of_nat 10.

Definition digit (a : ascii) : option Z :=
  if (48 <=? code a) && (code a <=? 57) then Some (code a - 48) else None.

(** Digits with single underscores between them, most significant first. *)
Fixpoint digits (acc : Z) (after_digit : bool) (l : list ascii) : option Z :=
  match l with
  | [] => if after_digit then Some acc else None
  | c :: r =>
      match digit c with
      | Some d => digits (10 * acc + d) true r
      | None =>
          if Ascii.eqb c "_" && after_digit then digits acc false r else None
      end
  end.

(** [int(s)]: [None] stands for the [ValueError].  The digits are the
    ASCII ones, which is what [lsof] prints. *)
Definition int (s : string) : option Z :=
  match strip_chars (list_ascii_of_string s) with
  | c :: r =>
      if Ascii.eqb c "-" then Z.opp <$> digits 0 false r
      else if Ascii.eqb c "+" then digits 0 false r
      else digits 0 false (c :: r)
  | [] => None
  end.

(** [repr(s)]: single quotes unless the string has a single quote and no
    double quote; backslash, the quote in use, tab, line feed and carriage
    return are escaped, other control characters are written in
    hexadecimal. *)
Definition hex_digit (n : Z) : ascii :=
  ascii_of_N (Z.to_N (if n <? 10 then 48 + n else 87 + n)).

Definition has_char (c : ascii) (s : string) : bool :=
  existsb (Ascii.eqb c) (list_ascii_of_string s).

Definition repr_char (quote c : ascii) : string :=
  if Ascii.eqb c "\" then "\\"
  else if Ascii.eqb c quote then String "\" (String quote EmptyString)
  else if code c =? 9 then "\t"
  else if code c =? 10 then "\n"
  else if code c =? 13 then "\r"
  else if (code c <? 32) || (code c =? 127) then
    "\x" +:+ String (hex_digit (code c / 16))
                (String (hex_digit (code c mod 16)) EmptyString)
  else String c EmptyString.

Definition dquote : ascii := ascii_of_nat 34.

Definition repr (s : string) : string :=
  let quote : ascii :=
    if has_char "'" s && negb (has_char dquote s) then dquote else "'"%char in
  String quote
    (String.concat "" (map (repr_char quote) (list_ascii_of_string s)))
  +:+ String quote EmptyString.

(** [str(x)] for an optional [int]. *)
Definition str_of_opt_int (n : option Z) : string :=
  match n with
  | None => "None"
  | Some n => str_of_int n
  end.

(** Truth value of a string and of an optional integer. *)
Definition truthy_str (s : string) : bool := negb (String.eqb s "").

Definition truthy_int (n : option Z) : bool :=
  match n with
  | None => false
  | Some n => negb (n =? 0)
  end.

End Py.

(* ===================================================================== *)
(** ** bot.py                                                             *)
(* ===================================================================== *)
Module Bot.

(** *** Frames of the pipeline engine

    The frame classes are pipecat's.  Only the classes [bot.py] names are
    told apart; every other class is an [OtherFrame] carrying its class
    name and an opaque payload. *)

(** [TranscriptionMessage]: [timestamp] is optional in pipecat. *)
Record TranscriptionMessage := {
  role : string;
  content : string;
  timestamp : option string;
}.

(** A chat message is a dictionary; insertion order is kept. *)
Definition dict := list (string * string).

Inductive Frame :=
| TranscriptionFrame (text user_id timestamp : string)
| LLMMessagesFrame (messages : list dict)
| TranscriptionUpdateFrame (messages : list TranscriptionMessage)
| BotInterruptionFrame
| EndFrame
| OtherFrame (class_name payload : string).

Inductive FrameDirection := DOWNSTREAM | UPSTREAM.

(** *** TranslationProcessor *)

Record TranslationProcessor := {
  _out_language : string;
  _in_language : string;
}.

(** [TranslationProcessor.__init__(in_language, out_language)] *)
Definition TranslationProcessor_init (in_language out_language : string)
  : TranslationProcessor :=
  {| _out_language := out_language; _in_language := in_language |}.

(** The f-string of the system message. *)
Definition system_content (self : TranslationProcessor) : string :=
  "You will be provided with a sentence in " +:+ _in_language self +:+
  ", and your task is to only translate it into " +:+ _out_language self +:+ ".".

(** [TranslationProcessor.process_frame]: the result is the list of frames
    handed to [push_frame], in order.  [super().process_frame] is the
    engine's bookkeeping and pushes nothing; the [logger.debug] line is
    left out.  [push_frame] is called without a direction argument, so
    [direction] is not used. *)
Definition process_frame (self : TranslationProcessor) (frame : Frame)
    (direction : FrameDirection) : list Frame :=
  match frame with
  | TranscriptionFrame text _ _ =>
      let context :=
        [ [("role", "system"); ("content", system_content self)];
          [("role", "user"); ("content", text)] ] in
      [LLMMessagesFrame context]
  | _ => [frame]
  end.

(** The stage run over a stream of incoming frames: the engine calls
    [process_frame] once per frame, in arrival order. *)
Definition run_stage (self : TranslationProcessor)
    (input : list (Frame * FrameDirection)) : list Frame :=
  concat (map (fun fd => process_frame self (fst fd) (snd fd)) input).

(** *** TranscriptHandler *)

Record TranscriptHandler := {
  messages : list TranscriptionMessage;
  in_language : string;
  out_language : string;
}.

(** [TranscriptHandler.__init__(in_language="English", out_language="Spanish")] *)
Definition TranscriptHandler_init (in_language out_language : option string)
  : TranscriptHandler :=
  {| messages := [];
     in_language := default "English" in_language;
     out_language := default "Spanish" out_language |}.

(** The dictionary [message] built for each entry of a batch. *)
Record message_record := {
  m_event : string;
  m_timestamp : option string;
  m_role : string;
  m_language : string;
  m_text : string;
}.

(** Truth value of an optional string: [None] and the empty string are
    false. *)
Definition truthy_opt_str (s : option string) : bool :=
  match s with
  | None => false
  | Some s => Py.truthy_str s
  end.

Definition build_message (self : TranscriptHandler) (msg : TranscriptionMessage)
  : message_record :=
  {| m_event := "translation";
     m_timestamp := timestamp msg;
     m_role := role msg;
     m_language := if String.eqb (role msg) "assistant"
                   then out_language self else in_language self;
     m_text := content msg |}.

(** The line given to [logger.info] for one entry. *)
Definition log_line (msg : TranscriptionMessage) : string :=
  let timestamp_ :=
    if truthy_opt_str (timestamp msg)
    then "[" +:+ default "" (timestamp msg) +:+ "] " else "" in
  timestamp_ +:+ role msg +:+ ": " +:+ content msg.

(** What one call of [on_transcript_update] leaves behind: the handler
    with its extended log, the [message] dictionaries built in the loop
    and the lines logged. *)
Record update_result := {
  handler : TranscriptHandler;
  records : list message_record;
  logged : list string;
}.

(** [TranscriptHandler.on_transcript_update(processor, frame)], with
    [frame.messages] as [batch]. *)
Definition on_transcript_update (self : TranscriptHandler)
    (batch : list TranscriptionMessage) : update_result :=
  let self' :=
    {| messages := messages self ++ batch;
       in_language := in_language self;
       out_language := out_language self |} in
  {| handler := self';
     records := map (build_message self') batch;
     logged := "New transcript messages:" :: map log_line batch |}.

(** A sequence of update notifications, oldest first. *)
Definition run_updates (self : TranscriptHandler)
    (batches : list (list TranscriptionMessage)) : TranscriptHandler :=
  fold_left (fun h b => handler (on_transcript_update h b)) batches self.

(** *** SessionTimeoutHandler

    All handlers share the one [PipelineTask] of [main].  The event loop
    is modelled by its clock (in seconds), the frames given to
    [task.queue_frames] so far, and the wake-up time of every [_end_call]
    task that is sleeping.  [queue_frames] belongs to the engine and is
    taken to append the frames; the [except] branches, which only log, are
    then never entered. *)
Record loop := {
  now : Z;
  queued : list Frame;
  sleeping : list Z;
}.

Definition loop_init : loop := {| now := 0; queued := []; sleeping := [] |}.

(** [task.queue_frames(frames)] *)
Definition queue_frames (frames : list Frame) (l : loop) : loop :=
  {| now := now l; queued := queued l ++ frames; sleeping := sleeping l |}.

(** [asyncio.create_task(self._end_call())]: the new task runs up to its
    [asyncio.sleep(3)]. *)
Definition create_end_call_task (l : loop) : loop :=
  {| now := now l; queued := queued l; sleeping := sleeping l ++ [now l + 3] |}.

(** [SessionTimeoutHandler.handle_timeout(client_address)] *)
Definition handle_timeout (client_address : string) (l : loop) : loop :=
  create_end_call_task (queue_frames [BotInterruptionFrame] l).

(** The callback registered for ["on_session_timeout"]: a fresh
    [SessionTimeoutHandler(task)] for every notification. *)
Definition on_session_timeout (client : string) (l : loop) : loop :=
  handle_timeout client l.

(** [SessionTimeoutHandler._end_call], from the point where its
    [asyncio.sleep(3)] is over. *)
Definition _end_call (l : loop) : loop :=
  queue_frames [BotInterruptionFrame; EndFrame] l.

(** The clock moves forward by [dt] seconds; the sleeping tasks that are
    due resume, oldest first. *)
Definition advance (dt : Z) (l : loop) : loop :=
  let t := now l + dt in
  let due := filter (fun d => d <= t) (sleeping l) in
  let rest := filter (fun d => ~ d <= t) (sleeping l) in
  fold_left (fun l _ => _end_call l) due
    {| now := t; queued := queued l; sleeping := rest |}.

Inductive event :=
| IdleTimeout (client : string)
| Elapse (dt : Z).

Definition step (l : loop) (e : event) : loop :=
  match e with
  | IdleTimeout client => on_session_timeout client l
  | Elapse dt => advance dt l
  end.

Definition run (es : list event) (l : loop) : loop := fold_left step es l.

End Bot.

(* ===================================================================== *)
(** ** server.py                                                          *)
(* ===================================================================== *)
Module Server.

(** *** Exceptions

    The classes [server.py] names in an [except] clause, and [ValueError]
    for [int()]; every other class is [OtherError].  Each carries the text
    [str(e)] gives. *)
Inductive exn :=
| ProcessLookupError (msg : string)
| FileNotFoundError (msg : string)
| TimeoutExpired (msg : string)
| ValueError (msg : string)
| OtherError (msg : string).

(** [str(e)] *)
Definition str_exn (e : exn) : string :=
  match e with
  | ProcessLookupError msg | FileNotFoundError msg | TimeoutExpired msg
  | ValueError msg | OtherError msg => msg
  end.

Definition is_ProcessLookupError (e : exn) : bool :=
  match e with ProcessLookupError _ => true | _ => false end.
Definition is_FileNotFoundError (e : exn) : bool :=
  match e with FileNotFoundError _ => true | _ => false end.
Definition is_TimeoutExpired (e : exn) : bool :=
  match e with TimeoutExpired _ => true | _ => false end.

(** A call to the outside returns or raises. *)
Definition result (A : Type) : Type := exn + A.

Inductive signal := SIGTERM | SIGKILL.

(** *** The module-level state *)

(** A [subprocess.Popen] object: its pid and the exit status it has
    observed so far ([returncode] is [None] until [poll], [wait] or
    [communicate] sees the child gone). *)
Record Popen := {
  pid : Z;
  returncode : option Z;
}.

(** An entry of [process_logs]: [{"stdout": [...], "stderr": [...]}]. *)
Record logs := {
  stdout : list string;
  stderr : list string;
}.

Record server := {
  active_processes : gmap Z Popen;
  process_logs : gmap Z logs;
}.

Definition server_init : server :=
  {| active_processes := ∅; process_logs := ∅ |}.

(** *** Calls to the outside, as they appear in a trace *)
Inductive effect :=
| Print (line : string)
| Connect_ex (host : string) (port : Z)
| Run (argv : list string)
| Os_kill (pid : Z) (sig : signal)
| Sleep (seconds : Q)
| Exists (path : string)
| Spawn (argv : list string) (cwd : string)
| Thread_start (log_type : string) (pid : Z)
| Poll (pid : Z)
| Communicate (pid : Z)
| Terminate (pid : Z)
| Kill (pid : Z)
| Wait (pid : Z) (timeout : Q).

(** *** What the outside answers during one request

    [SCRIPT_DIR] is the directory of [server.py] and [joinpath d n] the
    text of the path [d / n]; [subprocess_run argv] is the captured
    standard output of the command, or the exception raised when it cannot
    be run; [popen] is the pid of the new child (the operating system
    gives a positive one); [read_lines] is what the two reader threads of
    the child have read from its pipes by the end of the half second,
    line by line and each line with the stream it came on; [poll] is the
    child's exit status after the half second if it has exited;
    [communicate] is the pair [(output, error)] of what is then still in
    the two pipes, a pipe giving every byte to one reader only; [wait] is
    the exit status, or [TimeoutExpired]. *)
Record env := {
  platform : string;
  executable : string;
  SCRIPT_DIR : string;
  joinpath : string -> string -> string;
  connect_ex : string -> Z -> Z;
  subprocess_run : list string -> result string;
  os_kill : Z -> signal -> result unit;
  path_exists : string -> bool;
  popen : list string -> string -> result positive;
  read_lines : Z -> list (string * string);
  poll : Z -> option Z;
  communicate : Z -> string * string;
  terminate : Z -> result unit;
  kill : Z -> result unit;
  wait : Z -> Q -> result Z;
}.

Definition BOT_SCRIPT (e : env) : string := joinpath e (SCRIPT_DIR e) "bot.py".

(** *** The handler monad

    A handler threads the two dictionaries and the trace, and either
    returns or raises; what was changed before an exception stays
    changed. *)
Record world := {
  srv : server;
  trace : list effect;
}.

Definition M (A : Type) : Type := world -> result A * world.

#[global] Instance M_ret : MRet M := fun A a w => (inr a, w).
#[global] Instance M_bind : MBind M := fun A B f m w =>
  match m w with
  | (inr a, w') => f a w'
  | (inl e, w') => (inl e, w')
  end.

Definition raise {A} (e : exn) : M A := fun w => (inl e, w).

(** [try: body except <classes>: handler] where [catches] tells whether
    the clause matches. *)
Definition try_except {A} (body : M A) (catches : exn -> bool)
    (handler : exn -> M A) : M A := fun w =>
  match body w with
  | (inl e, w') => if catches e then handler e w' else (inl e, w')
  | r => r
  end.

Definition emit (x : effect) : M unit := fun w =>
  (inr tt, {| srv := srv w; trace := trace w ++ [x] |}).

Definition lift {A} (r : result A) : M A := fun w => (r, w).

Definition get_server : M server := fun w => (inr (srv w), w).

Definition put_server (s : server) : M unit := fun w =>
  (inr tt, {| srv := s; trace := trace w |}).

Definition print (line : string) : M unit := emit (Print line).

(** *** Responses *)
Inductive json :=
| JBool (b : bool)
| JInt (n : Z)
| JStr (s : string)
| JList (l : list string).

(** A response: status line, headers and the dictionary given to
    [json.dumps], keys in the order written. *)
Record response := {
  status : Z;
  headers : list (string * string);
  body : list (string * json);
}.

(** [_set_response_headers()] followed by the body. *)
Definition respond_200 (body : list (string * json)) : response :=
  {| status := 200;
     headers := [("Content-type", "application/json");
                 ("Access-Control-Allow-Origin", "*");
                 ("Access-Control-Allow-Methods", "GET, POST, OPTIONS");
                 ("Access-Control-Allow-Headers", "Content-Type")];
     body := body |}.

(** [send_response(500)] with its one header, followed by the body. *)
Definition respond_500 (body : list (string * json)) : response :=
  {| status := 500;
     headers := [("Content-type", "application/json")];
     body := body |}.

(** *** Calls to the outside, as monadic actions *)

(** [is_port_in_use(port)], the local function of [_start_bot]. *)
Definition is_port_in_use (e : env) (port : Z) : M bool :=
  emit (Connect_ex "localhost" port);;
  mret (connect_ex e "localhost" port =? 0).

(** [subprocess.run(argv, capture_output=True, ...)]; the result is
    [result.stdout]. *)
Definition run (e : env) (argv : list string) : M string :=
  emit (Run argv);; lift (subprocess_run e argv).

(** [os.kill(pid, sig)] *)
Definition os_kill_ (e : env) (pid : Z) (sig : signal) : M unit :=
  emit (Os_kill pid sig);; lift (os_kill e pid sig).

(** [time.sleep(seconds)] *)
Definition sleep (seconds : Q) : M unit := emit (Sleep seconds).

(** [path.exists()] *)
Definition exists_ (e : env) (path : string) : M bool :=
  emit (Exists path);; mret (path_exists e path).

(** [int(s)] *)
Definition int_ (s : string) : M Z :=
  match Py.int s with
  | Some n => mret n
  | None =>
      raise (ValueError ("invalid literal for int() with base 10: " +:+ Py.repr s))
  end.

(** The loop over [port_pids], which [_start_bot] and [_stop_bot] both
    have; [killed port_pid] is the line printed after a successful kill. *)
Fixpoint kill_port_pids (e : env) (killed : string -> string)
    (port_pids : list string) : M unit :=
  match port_pids with
  | [] => mret tt
  | port_pid :: rest =>
      try_except
        (n ← int_ port_pid;
         os_kill_ e n SIGKILL;;
         print (killed port_pid))
        is_ProcessLookupError (fun _ => mret tt);;
      kill_port_pids e killed rest
  end.

(** The body under [if is_port_in_use(8765)] and under [if force_port],
    up to the lines that follow the platform test: [port] is the text
    after the colon in the [lsof] argument. *)
Definition kill_port_holders (e : env) (port : string)
    (killed : string -> string) : M unit :=
  if String.eqb (platform e) "win32" then
    run e ["taskkill"; "/F"; "/IM"; "python.exe"];; mret tt
  else
    try_except
      (result_stdout ← run e ["lsof"; "-ti"; ":" +:+ port];
       if Py.truthy_str result_stdout then
         kill_port_pids e killed (Py.split Py.newline (Py.strip result_stdout))
       else mret tt)
      is_FileNotFoundError
      (fun _ => run e ["pkill"; "-f"; "bot.py"];; mret tt).

(** *** read_output

    One turn of the reader's loop: a line has arrived on the pipe of
    [log_type] (["stdout"] or ["stderr"]) of worker [pid]. *)
Definition read_output (log_type : string) (pid : Z) (line : string)
    (s : server) : server :=
  match process_logs s !! pid with
  | Some l =>
      let l' :=
        if String.eqb log_type "stdout" then
          {| stdout := stdout l ++ [Py.strip line]; stderr := stderr l |}
        else if String.eqb log_type "stderr" then
          {| stdout := stdout l; stderr := stderr l ++ [Py.strip line] |}
        else l in
      {| active_processes := active_processes s;
         process_logs := <[pid := l']> (process_logs s) |}
  | None => s
  end.

(** The lines of worker [pid] that the two threads read one after the
    other, each with its stream. *)
Definition read_all (pid : Z) (lines : list (string * string)) (s : server)
  : server :=
  fold_left (λ s tl, read_output tl.1 pid tl.2 s) lines s.

(** *** _start_bot *)

Definition creds_path (e : env) : string := joinpath e (SCRIPT_DIR e) "creds.json".
Definition env_path (e : env) : string := joinpath e (SCRIPT_DIR e) ".env".

Definition creds_missing_error (e : env) : string :=
  "Google Cloud credentials file not found at " +:+ creds_path e +:+
  ". Please create this file with your Google Cloud credentials.".

Definition env_missing_error (e : env) : string :=
  ".env file not found at " +:+ env_path e +:+
  ". Please create this file with your OpenAI API key.".

(** A [Popen] object records the exit status it has seen. *)
Definition set_returncode (code : Z) (process : Popen) : Popen :=
  {| pid := pid process; returncode := Some code |}.

(** [process.poll()]: when the child is gone its status is stored in the
    [Popen] object, and [active_processes] holds that very object. *)
Definition poll_ (e : env) (process : Popen) : M (option Z) :=
  emit (Poll (pid process));;
  match poll e (pid process) with
  | Some code =>
      s ← get_server;
      put_server
        {| active_processes :=
             alter (set_returncode code) (pid process) (active_processes s);
           process_logs := process_logs s |};;
      mret (Some code)
  | None => mret None
  end.

(** [subprocess.Popen([sys.executable, str(BOT_SCRIPT)], ..., cwd=SCRIPT_DIR)] *)
Definition Popen_ (e : env) : M Popen :=
  let argv := [executable e; BOT_SCRIPT e] in
  emit (Spawn argv (SCRIPT_DIR e));;
  p ← lift (popen e argv (SCRIPT_DIR e));
  mret {| pid := Z.pos p; returncode := None |}.

(** [threading.Thread(target=read_output, args=(pipe, log_type, pid)).start()] *)
Definition start_reader (log_type : string) (pid : Z) : M unit :=
  emit (Thread_start log_type pid).

(** The two threads run while the handler sleeps: every line they read
    goes through [read_output]. *)
Definition reader_threads (e : env) (pid : Z) : M unit :=
  s ← get_server;
  put_server (read_all pid (read_lines e pid) s).

(** [process.communicate()] *)
Definition communicate_ (e : env) (process : Popen) : M (string * string) :=
  emit (Communicate (pid process));; mret (communicate e (pid process)).

(** The [try] block of [_start_bot], in the three parts its comments
    mark. *)

(** "Check if port 8765 is in use" *)
Definition free_port_8765 (e : env) : M unit :=
  in_use ← is_port_in_use e 8765;
  if in_use : bool then
    print "Port 8765 is in use, attempting to free it...";;
    kill_port_holders e "8765"
      (λ port_pid, "Killed process " +:+ port_pid +:+ " using port 8765");;
    sleep 1
  else mret tt.

(** "Start the bot.py process", to the end of the block. *)
Definition start_process (e : env) : M response :=
  print ("Starting bot.py from " +:+ SCRIPT_DIR e);;
  process ← Popen_ e;
  let pid := pid process in
  s ← get_server;
  put_server
    {| active_processes := <[pid := process]> (active_processes s);
       process_logs :=
         <[pid := {| stdout := []; stderr := [] |}]> (process_logs s) |};;
  start_reader "stdout" pid;;
  start_reader "stderr" pid;;
  sleep 0.5;;
  reader_threads e pid;;
  exited ← poll_ e process;
  match exited with
  | Some code =>
      '(output, error) ← communicate_ e process;
      print ("Bot process exited immediately with code " +:+ Py.str_of_int code);;
      print ("STDOUT: " +:+ output);;
      print ("STDERR: " +:+ error);;
      mret (respond_500
              [("success", JBool false);
               ("error", JStr ("Bot failed to start (exit code " +:+
                               Py.str_of_int code +:+ "): " +:+ error))])
  | None =>
      print ("Started bot.py process with PID: " +:+ Py.str_of_int pid);;
      mret (respond_200 [("success", JBool true); ("pid", JInt pid)])
  end.

(** "Check if Google Cloud credentials exist" and "Check if .env file
    exists", between the two. *)
Definition start_bot_body (e : env) : M response :=
  free_port_8765 e;;
  creds_found ← exists_ e (creds_path e);
  if negb creds_found then
    print ("Google Cloud credentials file not found at " +:+ creds_path e);;
    mret (respond_200 [("success", JBool false);
                       ("error", JStr (creds_missing_error e))])
  else
    env_found ← exists_ e (env_path e);
    if negb env_found then
      print (".env file not found at " +:+ env_path e);;
      mret (respond_200 [("success", JBool false);
                         ("error", JStr (env_missing_error e))])
    else start_process e.

(** [_start_bot]: the body, and the [except Exception] clause around it. *)
Definition _start_bot (e : env) : M response :=
  try_except (start_bot_body e) (λ _, true)
    (λ ex,
       print ("Error starting bot.py: " +:+ str_exn ex);;
       mret (respond_500 [("success", JBool false);
                          ("error", JStr (str_exn ex))])).

(** *** _stop_bot *)

(** The request body after [json.loads]: [data.get('pid')],
    [data.get('force', False)] and [data.get('force_port')].  A pid and a
    port, when present, are integers, and [force] is a boolean.  Reading
    the body stands before the [try] block and is not part of the
    model. *)
Record stop_request := {
  req_pid : option Z;
  force : bool;
  force_port : option Z;
}.

(** [process.kill()], [process.terminate()], [process.wait(timeout)] *)
Definition kill_ (e : env) (process : Popen) : M unit :=
  emit (Kill (pid process));; lift (kill e (pid process)).

Definition terminate_ (e : env) (process : Popen) : M unit :=
  emit (Terminate (pid process));; lift (terminate e (pid process)).

Definition wait_ (e : env) (process : Popen) (timeout : Q) : M Z :=
  emit (Wait (pid process) timeout);; lift (wait e (pid process) timeout).

(** [pid and pid in d], with [d[pid]] when it holds. *)
Definition lookup_truthy {V} (pid : option Z) (d : gmap Z V) : option (Z * V) :=
  if Py.truthy_int pid then pid ≫= (λ pid, (pid,.) <$> d !! pid) else None.

(** The hard kill, written out three times in [_stop_bot]. *)
Definition hard_kill (e : env) (process : Popen) (pid : Z) : M unit :=
  if String.eqb (platform e) "win32" then kill_ e process
  else os_kill_ e pid SIGKILL.

Definition not_found_response : response :=
  respond_200 [("success", JBool false); ("error", JStr "Process not found")].

(** The [try] block of [_stop_bot]. *)
Definition stop_bot_body (e : env) (data : stop_request) : M response :=
  if Py.truthy_int (force_port data) then
    let port := Py.str_of_opt_int (force_port data) in
    kill_port_holders e port
      (λ port_pid,
         "Force killed process " +:+ port_pid +:+ " using port " +:+ port);;
    mret (respond_200 [("success", JBool true)])
  else
    s ← get_server;
    match lookup_truthy (req_pid data) (active_processes s) with
    | None => mret not_found_response
    | Some (pid, process) =>
        (if force data then
           hard_kill e process pid;;
           print ("Force killed bot process with PID: " +:+ Py.str_of_int pid)
         else
           (if String.eqb (platform e) "win32" then terminate_ e process
            else os_kill_ e pid SIGTERM);;
           try_except
             (wait_ e process 3;;
              print ("Successfully terminated bot process with PID: " +:+
                     Py.str_of_int pid))
             is_TimeoutExpired
             (λ _,
                hard_kill e process pid;;
                print ("Force killed bot process with PID: " +:+
                       Py.str_of_int pid)));;
        s ← get_server;
        put_server
          {| active_processes := delete pid (active_processes s);
             process_logs := process_logs s |};;
        mret (respond_200 [("success", JBool true)])
    end.

(** [_stop_bot]: the body, and the [except Exception] clause around it. *)
Definition _stop_bot (e : env) (data : stop_request) : M response :=
  try_except (stop_bot_body e data) (λ _, true)
    (λ ex,
       print ("Error stopping bot.py (PID " +:+ Py.str_of_opt_int (req_pid data)
              +:+ "): " +:+ str_exn ex);;
       mret (respond_500 [("success", JBool false);
                          ("error", JStr (str_exn ex))])).

(** *** _get_bot_logs *)

(** [max(d.keys())] for a non-empty dictionary; [None] for the empty
    one. *)
Definition max_key {V} (d : gmap Z V) : option Z :=
  match (map_to_list d).*1 with
  | [] => None
  | k :: ks => Some (foldr Z.max k ks)
  end.

Definition logs_response (pid : Z) (l : logs) : response :=
  respond_200 [("success", JBool true);
               ("pid", JInt pid);
               ("stdout", JList (stdout l));
               ("stderr", JList (stderr l))].

Definition no_logs_response : response :=
  respond_200 [("success", JBool false);
               ("error", JStr "No bot logs available")].

(** [_get_bot_logs], with [pid] as read from the request: [None] when the
    request has no body or its body has no ["pid"], an integer
    otherwise. *)
Definition _get_bot_logs (pid : option Z) (s : server) : response :=
  match lookup_truthy pid (process_logs s) with
  | Some (pid, logs) => logs_response pid logs
  | None =>
      if negb (Py.truthy_int pid) && negb (bool_decide (process_logs s = ∅)) then
        match max_key (process_logs s) with
        | Some latest_pid =>
            match process_logs s !! latest_pid with
            | Some logs => logs_response latest_pid logs
            | None => no_logs_response
            end
        | None => no_logs_response
        end
      else no_logs_response
  end.

(** *** The control surface as a whole

    The server handles one request at a time.  The lines that the
    reader threads of a new child read while its start sleeps are part of
    that start; later lines arrive between requests.  Each request comes
    with what the outside answers while it is handled. *)
Inductive call :=
| Start (e : env)
| Stop (e : env) (data : stop_request)
| GetLogs (pid : option Z)
| LogLine (log_type : string) (pid : Z) (line : string).

(** One call: the state after it, the response if it is a request, and
    the calls it made to the outside. *)
Definition handle (c : call) (s : server)
  : server * option response * list effect :=
  match c with
  | Start e =>
      match _start_bot e {| srv := s; trace := [] |} with
      | (inr r, w) => (srv w, Some r, trace w)
      | (inl _, w) => (srv w, None, trace w)
      end
  | Stop e data =>
      match _stop_bot e data {| srv := s; trace := [] |} with
      | (inr r, w) => (srv w, Some r, trace w)
      | (inl _, w) => (srv w, None, trace w)
      end
  | GetLogs pid => (s, Some (_get_bot_logs pid s), [])
  | LogLine log_type pid line => (read_output log_type pid line s, None, [])
  end.

Definition after (c : call) (s : server) : server := (handle c s).1.1.

Definition run_calls (cs : list call) (s : server) : server :=
  fold_left (λ s c, after c s) cs s.

(** *** Reading traces *)

Definition is_Spawn (x : effect) : bool :=
  match x with Spawn _ _ => true | _ => false end.

Definition is_Poll (x : effect) : bool :=
  match x with Poll _ => true | _ => false end.

Definition is_Print (x : effect) : bool :=
  match x with Print _ => true | _ => false end.

(** The calls the port-freeing code makes: the probe, the commands, the
    signals, the pause, and what it prints. *)
Definition frees_port (x : effect) : bool :=
  match x with
  | Connect_ex _ _ | Print _ | Run _ | Os_kill _ _ | Sleep _ => true
  | _ => false
  end.

(** An action that neither reads nor writes the dictionaries: it returns
    a fixed result and appends a fixed list of calls, all of kind [P]. *)
Definition tracing {A} (P : effect -> bool) (m : M A) : Prop :=
  ∃ r tr, forallb P tr = true ∧
          ∀ w, m w = (r, {| srv := srv w; trace := trace w ++ tr |}).

(** What the first part of [_start_bot] does: its outcome and its
    calls. *)
Definition port_step (e : env) : result unit * list effect :=
  let '(r, w) := free_port_8765 e {| srv := server_init; trace := [] |} in
  (r, trace w).

(** The same for the [force_port] branch of [_stop_bot]. *)
Definition force_port_step (e : env) (force_port : option Z)
  : result unit * list effect :=
  let port := Py.str_of_opt_int force_port in
  let '(r, w) :=
    kill_port_holders e port
      (λ port_pid, "Force killed process " +:+ port_pid +:+ " using port " +:+ port)
      {| srv := server_init; trace := [] |} in
  (r, trace w).

(** Names for the states and responses the handlers can end in. *)
Definition start_argv (e : env) : list string := [executable e; BOT_SCRIPT e].

Definition error_500 (ex : exn) : response :=
  respond_500 [("success", JBool false); ("error", JStr (str_exn ex))].

Definition spawned (s : server) (pid : Z) : server :=
  {| active_processes :=
       <[pid := {| pid := pid; returncode := None |}]> (active_processes s);
     process_logs :=
       <[pid := {| stdout := []; stderr := [] |}]> (process_logs s) |}.

Definition started (e : env) (s : server) (pid : Z) : server :=
  read_all pid (read_lines e pid) (spawned s pid).

Definition exited (e : env) (s : server) (pid code : Z) : server :=
  {| active_processes :=
       alter (set_returncode code) pid (active_processes (started e s pid));
     process_logs := process_logs (started e s pid) |}.

(** [del active_processes[pid]] *)
Definition stopped (s : server) (pid : Z) : server :=
  {| active_processes := delete pid (active_processes s);
     process_logs := process_logs s |}.

Definition success_response : response := respond_200 [("success", JBool true)].

(** The line the [except Exception] clause of [_stop_bot] prints. *)
Definition stop_error_line (data : stop_request) (ex : exn) : effect :=
  Print ("Error stopping bot.py (PID " +:+ Py.str_of_opt_int (req_pid data)
         +:+ "): " +:+ str_exn ex).

(** The graceful and the hard signal of [_stop_bot] on this platform: the
    call made and what it answers. *)
Definition graceful (e : env) (process : Popen) (pid : Z) : effect * result unit :=
  if String.eqb (platform e) "win32"
  then (Terminate (Server.pid process), terminate e (Server.pid process))
  else (Os_kill pid SIGTERM, os_kill e pid SIGTERM).

Definition hard (e : env) (process : Popen) (pid : Z) : effect * result unit :=
  if String.eqb (platform e) "win32"
  then (Kill (Server.pid process), kill e (Server.pid process))
  else (Os_kill pid SIGKILL, os_kill e pid SIGKILL).

Definition is_Start (c : call) : bool :=
  match c with Start _ => true | _ => false end.

Definition response_of (c : call) (s : server) : option response :=
  (handle c s).1.2.

Definition trace_of (c : call) (s : server) : list effect := (handle c s).2.

End Server.

(* ===================================================================== *)
(** ** Concrete inputs used by the examples                               *)
(* ===================================================================== *)
Module Examples.
Import Bot.

(** The processor and the handler that [main] of [bot.py] builds. *)
Definition tp : TranslationProcessor := TranslationProcessor_init "Bengali" "English".

Definition transcript_handler : TranscriptHandler :=
  TranscriptHandler_init (Some "Bengali") (Some "English").

Definition utterance : string := "ami bhalo achi".

Definition stream : list (Frame * FrameDirection) :=
  [ (OtherFrame "UserStartedSpeakingFrame" "", DOWNSTREAM);
    (TranscriptionFrame utterance "user-1" "2025-01-01T00:00:00", DOWNSTREAM);
    (OtherFrame "UserStoppedSpeakingFrame" "", DOWNSTREAM) ].

Definition hola : TranscriptionMessage :=
  {| role := "user"; content := "hola"; timestamp := None |}.
Definition hello : TranscriptionMessage :=
  {| role := "assistant"; content := "hello"; timestamp := Some "00:00:01" |}.

(** Hosts for the supervisor.  A host is described by its platform, what
    a connection attempt to the worker's port returns, what the commands
    and signals answer, which files exist, the pid the next child gets,
    its exit status after the half second if it has exited, the lines its
    reader threads have read by then, what is left on its pipes, and what
    waiting for it gives. *)
Definition host (platform : string) (connect : Z)
    (commands : list string → Server.result string)
    (signals : Z → Server.signal → Server.result unit)
    (files : string → bool) (child : positive) (status : option Z)
    (threads : list (string * string))
    (pipes : string * string) (waited : Server.result Z) : Server.env :=
  {| Server.platform := platform;
     Server.executable := "/usr/bin/python3";
     Server.SCRIPT_DIR := "/srv/translate";
     Server.joinpath := λ d n, d +:+ "/" +:+ n;
     Server.connect_ex := λ _ _, connect;
     Server.subprocess_run := commands;
     Server.os_kill := signals;
     Server.path_exists := files;
     Server.popen := λ _ _, inr child;
     Server.read_lines := λ _, threads;
     Server.poll := λ _, status;
     Server.communicate := λ _, pipes;
     Server.terminate := λ _, inr tt;
     Server.kill := λ _, inr tt;
     Server.wait := λ _ _, waited |}.

(** [ECONNREFUSED]: nothing listens on the port. *)
Definition refused : Z := 111.

Definition delivered : Z → Server.signal → Server.result unit := λ _ _, inr tt.

Definition no_such_process : Z → Server.signal → Server.result unit :=
  λ _ _, inl (Server.ProcessLookupError "[Errno 3] No such process").

Definition silent : list string → Server.result string := λ _, inr "".

(** Neither [lsof] nor [pkill] is installed. *)
Definition not_installed : list string → Server.result string :=
  λ argv, inl (Server.FileNotFoundError
                 ("[Errno 2] No such file or directory: " +:+
                  Py.repr (List.hd "" argv))).

(** [lsof -ti :8765] prints the pid of the worker that listens there. *)
Definition lsof_finds_4242 : list string → Server.result string :=
  λ argv, if bool_decide (argv = ["lsof"; "-ti"; ":8765"])
          then inr ("4242" +:+ String Py.newline "") else inr "".

Definition all_files : string → bool := λ _, true.

Definition no_creds : string → bool :=
  λ path, negb (String.eqb path "/srv/translate/creds.json").

Definition no_env : string → bool :=
  λ path, negb (String.eqb path "/srv/translate/.env").

(** A first start on a quiet host, then a second one while the first
    worker runs: once with the port still free, once with the first
    worker listening on it. *)
Definition first_start : Server.env :=
  host "linux" refused silent delivered all_files 4242 None [] ("", "") (inr 0).

Definition second_start : Server.env :=
  host "linux" refused silent delivered all_files 4243 None [] ("", "") (inr 0).

Definition second_start_port_bound : Server.env :=
  host "linux" 0 lsof_finds_4242 delivered all_files 4243 None [] ("", "") (inr 0).

(** The worker dies at once (say, on a missing module).  What it wrote
    on its error stream has been read by the reader thread when the
    handler wakes up, and nothing is left in the pipes. *)
Definition crashing_start : Server.env :=
  host "linux" refused silent delivered all_files 4242 (Some 1)
    [ ("stderr", "Traceback (most recent call last):" +:+ String Py.newline "");
      ("stderr", "ModuleNotFoundError: No module named 'pipecat'" +:+
                 String Py.newline "") ]
    ("", "") (inr 1).

(** A later request on the same host: the child has been reaped, so the
    pid no longer exists. *)
Definition child_reaped : Server.env :=
  host "linux" refused silent no_such_process all_files 4244 None [] ("", "") (inr 1).

(** A worker that ignores the graceful signal. *)
Definition stubborn : Server.env :=
  host "linux" refused silent delivered all_files 4244 None [] ("", "")
    (inl (Server.TimeoutExpired
            "Command '['/usr/bin/python3', '/srv/translate/bot.py']' timed out after 3 seconds")).

(** The port is bound and the host has neither [lsof] nor [pkill]. *)
Definition port_bound_no_tools : Server.env :=
  host "linux" 0 not_installed delivered all_files 4242 None [] ("", "") (inr 0).

Definition start_without_creds : Server.env :=
  host "linux" refused silent delivered no_creds 4242 None [] ("", "") (inr 0).

Definition start_without_env : Server.env :=
  host "linux" refused silent delivered no_env 4242 None [] ("", "") (inr 0).

(** [creds.json] is absent, the port is bound and the host has neither
    [lsof] nor [pkill]. *)
Definition port_bound_no_tools_no_creds : Server.env :=
  host "linux" 0 not_installed delivered no_creds 4242 None [] ("", "") (inr 0).

Definition stop_4242 : Server.stop_request :=
  {| Server.req_pid := Some 4242; Server.force := false; Server.force_port := None |}.

End Examples.

(* ===================================================================== *)
(** ** Reading the worker's queue and the event history                   *)
(* ===================================================================== *)
Module BotAux.
Import Bot.

Definition is_EndFrame (f : Frame) : bool :=
  match f with EndFrame => true | _ => false end.

Definition is_BotInterruptionFrame (f : Frame) : bool :=
  match f with BotInterruptionFrame => true | _ => false end.

Definition is_TranscriptionFrame (f : Frame) : bool :=
  match f with TranscriptionFrame _ _ _ => true | _ => false end.

Definition is_IdleTimeout (ev : event) : bool :=
  match ev with IdleTimeout _ => true | _ => false end.

(** The time an event lets pass. *)
Definition elapsed (ev : event) : Z :=
  match ev with Elapse dt => dt | IdleTimeout _ => 0 end.

(** How many frames of a kind a queue holds. *)
Definition count (kind : Frame → bool) (q : list Frame) : nat :=
  length (List.filter kind q).

(** Every end signal of a queue stands directly behind an interruption
    signal. *)
Definition interruption_before_end (q : list Frame) : Prop :=
  ∀ i : nat, q !! i = Some EndFrame →
    ∃ j : nat, i = S j ∧ q !! j = Some BotInterruptionFrame.

(** The clock of a session and its timers: time has not run backwards,
    every pending timer is due within the next three seconds and was set
    no earlier than the start of the session, and no end signal is queued
    in the first three seconds. *)
Definition on_time (l : loop) : Prop :=
  0 ≤ now l
  ∧ Forall (λ d, now l < d ≤ now l + 3 ∧ 3 ≤ d) (sleeping l)
  ∧ (now l < 3 → count is_EndFrame (queued l) = 0%nat).

End BotAux.

(* ===================================================================== *)
(** ** Reading the supervisor's traces and tables                         *)
(* ===================================================================== *)
Module ServerAux.
Import Server.

(** Calls that act on other processes. *)
Definition acts_on_processes (x : effect) : bool :=
  match x with
  | Run _ | Os_kill _ _ | Terminate _ | Kill _ => true
  | _ => false
  end.

(** Calls made through a worker's [Popen] object. *)
Definition uses_handle (x : effect) : bool :=
  match x with
  | Poll _ | Communicate _ | Terminate _ | Kill _ | Wait _ _ => true
  | _ => false
  end.

Definition is_Wait (x : effect) : bool :=
  match x with Wait _ _ => true | _ => false end.

(** The tables as the handlers leave them: every tracked pid is positive,
    is the pid of the [Popen] object stored under it, and has a log
    record. *)
Definition well_tracked (s : server) : Prop :=
  ∀ k process,
    active_processes s !! k = Some process →
    pid process = k ∧ 0 < k ∧ is_Some (process_logs s !! k).

(** Lines that arrived from worker [pid], each with the stream it came
    on, as calls of the reader threads. *)
Definition log_lines (pid : Z) (arrived : list (string * string)) : list call :=
  map (λ tl, LogLine tl.1 pid tl.2) arrived.

(** The lines of one stream among them, as [read_output] stores them. *)
Definition stored (log_type : string) (arrived : list (string * string))
  : list string :=
  map (λ tl, Py.strip tl.2)
    (List.filter (λ tl, String.eqb tl.1 log_type) arrived).

(** The request has no usable pid, or names a pid that is not tracked. *)
Definition names_no_worker (data : stop_request) (s : server) : Prop :=
  req_pid data = None ∨ req_pid data = Some 0
  ∨ ∃ pid, req_pid data = Some pid ∧ active_processes s !! pid = None.

End ServerAux.

(* ===================================================================== *)
(** ** More hosts and requests for the examples                           *)
(* ===================================================================== *)
Module MoreExamples.
Import Server.

(** A host like [h] on which the interpreter cannot be executed. *)
Definition cannot_spawn (h : env) : env :=
  {| platform := platform h;
     executable := executable h;
     SCRIPT_DIR := SCRIPT_DIR h;
     joinpath := joinpath h;
     connect_ex := connect_ex h;
     subprocess_run := subprocess_run h;
     os_kill := os_kill h;
     path_exists := path_exists h;
     popen := λ _ _,
       inl (OtherError "[Errno 13] Permission denied: '/usr/bin/python3'");
     read_lines := read_lines h;
     poll := poll h;
     communicate := communicate h;
     terminate := terminate h;
     kill := kill h;
     wait := wait h |}.

Definition start_cannot_spawn : env := cannot_spawn Examples.first_start.

(** The worker lives, and its reader thread has read one line of its
    error stream by the time it is polled. *)
Definition chatty_start : env :=
  Examples.host "linux" Examples.refused Examples.silent Examples.delivered
    Examples.all_files 4242 None
    [("stderr", "INFO starting" +:+ String Py.newline "")] ("", "") (inr 0).

(** A line with a no-break space (U+00A0) in front and an em space
    (U+2003) and a line feed behind. *)
Definition listening : string :=
  String (ascii_of_nat 194) (String (ascii_of_nat 160) "INFO  listening") +:+
  String (ascii_of_nat 226) (String (ascii_of_nat 128)
    (String (ascii_of_nat 131) (String Py.newline ""))).

End MoreExamples.

(* ===================================================================== *)
(** ** server.py: static files, routing and cleanup                       *)
(* ===================================================================== *)
Module Http.
Import Server.

(** [s.lstrip(c)] for a one-character argument. *)
Fixpoint lstrip (c : ascii) (s : string) : string :=
  match s with
  | String a r => if Ascii.eqb a c then lstrip c r else s
  | EmptyString => EmptyString
  end.

Fixpoint starts_with (p l : list ascii) : bool :=
  match p, l with
  | [], _ => true
  | a :: p', b :: l' => Ascii.eqb a b && starts_with p' l'
  | _ :: _, [] => false
  end.

(** [s.endswith(suffix)] *)
Definition endswith (suffix s : string) : bool :=
  starts_with (rev (list_ascii_of_string suffix)) (rev (list_ascii_of_string s)).

(** What a handler writes to the connection, in order. *)
Inductive wire :=
| Send_response (code : Z)
| Send_header (keyword value : string)
| End_headers
| Write (data : string).

(** The chain of [endswith] tests of [do_GET]. *)
Definition content_type (path : string) : string :=
  if endswith ".html" path then "text/html"
  else if endswith ".js" path then "application/javascript"
  else if endswith ".css" path then "text/css"
  else if endswith ".json" path then "application/json"
  else if endswith ".proto" path then "application/protobuf"
  else "application/octet-stream".

(** [do_GET] for request path [request_path].  [read path] is what
    [open(path, 'rb')] and [file.read()] give: the bytes, or the exception
    raised.  What was written before an exception stays written. *)
Definition do_GET (e : env) (read : string → result string)
    (request_path : string) : list wire :=
  let path :=
    if String.eqb request_path "/" then "/index.html" else request_path in
  let file_to_open := joinpath e (SCRIPT_DIR e) (lstrip "/" path) in
  if path_exists e file_to_open then
    [Send_response 200; Send_header "Content-type" (content_type path);
     End_headers] ++
    match read file_to_open with
    | inr data => [Write data]
    | inl ex =>
        [Send_response 500; Send_header "Content-type" "text/html";
         End_headers; Write ("500 - Server Error: " +:+ str_exn ex)]
    end
  else
    [Send_response 404; Send_header "Content-type" "text/html"; End_headers;
     Write "404 - File Not Found"].

(** The answer of [do_POST] to a path it does not know. *)
Definition endpoint_not_found : response :=
  {| status := 404;
     headers := [("Content-type", "application/json")];
     body := [("error", JStr "Endpoint not found")] |}.

(** [do_POST]: [data] is the request body as the handler reached will
    read it. *)
Definition do_POST (e : env) (path : string) (data : stop_request)
    (s : server) : server * option response * list effect :=
  if String.eqb path "/start-bot" then handle (Start e) s
  else if String.eqb path "/stop-bot" then handle (Stop e data) s
  else if String.eqb path "/bot-logs" then handle (GetLogs (req_pid data)) s
  else (s, Some endpoint_not_found, []).

(** The loop of [cleanup] over [items]: a bare [except] swallows whatever
    the kill raises. *)
Fixpoint cleanup_loop (e : env) (items : list (Z * Popen)) : M unit :=
  match items with
  | [] => mret tt
  | (pid, process) :: rest =>
      try_except
        (hard_kill e process pid;;
         print ("Killed process " +:+ Py.str_of_int pid +:+ " during cleanup"))
        (λ _, true) (λ _, mret tt);;
      cleanup_loop e rest
  end.

(** [items] lists the table in the order of the dictionary: the entries
    of the table, each once. *)
Definition items_of (s : server) (items : list (Z * Popen)) : Prop :=
  items ≡ₚ map_to_list (active_processes s).

(** [cleanup()], given [list(active_processes.items())]: the state and
    the calls it leaves. *)
Definition cleanup (e : env) (items : list (Z * Popen)) (s : server)
  : result unit * server * list effect :=
  let '(r, w) := cleanup_loop e items {| srv := s; trace := [] |} in
  (r, srv w, trace w).

End Http.

(* ===================================================================== *)
(** ** The output of lsof                                                 *)
(* ===================================================================== *)
Module LsofAux.

(** [lsof -t] prints the pids it found, one to a line. *)
Definition lsof_output (pids : list positive) : string :=
  foldr (λ p out, Py.str_of_int (Z.pos p) +:+ String Py.newline out) "" pids.

(** The same lines with no newline behind the last. *)
Fixpoint join_lines (p : positive) (ps : list positive) : string :=
  match ps with
  | [] => Py.str_of_int (Z.pos p)
  | q :: qs => Py.str_of_int (Z.pos p) +:+ String Py.newline (join_lines q qs)
  end.

(** The characters of [str(p)]. *)
Definition chars (p : positive) : list ascii :=
  list_ascii_of_string (Py.str_of_int (Z.pos p)).

Definition is_digit (c : ascii) : Prop := 48 ≤ Py.code c ≤ 57.

(** The value of a run of decimal digits read from the left, starting
    from [acc]. *)
Fixpoint horner (acc : Z) (d : Decimal.uint) : Z :=
  match d with
  | Decimal.Nil => acc
  | Decimal.D0 d => horner (10 * acc + 0) d
  | Decimal.D1 d => horner (10 * acc + 1) d
  | Decimal.D2 d => horner (10 * acc + 2) d
  | Decimal.D3 d => horner (10 * acc + 3) d
  | Decimal.D4 d => horner (10 * acc + 4) d
  | Decimal.D5 d => horner (10 * acc + 5) d
  | Decimal.D6 d => horner (10 * acc + 6) d
  | Decimal.D7 d => horner (10 * acc + 7) d
  | Decimal.D8 d => horner (10 * acc + 8) d
  | Decimal.D9 d => horner (10 * acc + 9) d
  end.

(** Neither the first nor the last character is white space. *)
Definition edge_ok (l : list ascii) : Prop :=
  match l with c :: _ => Py.isspace c = false | [] => False end
  ∧ match rev l with c :: _ => Py.isspace c = false | [] => False end.

(** Text in which every character is one byte. *)
Definition one_byte_each (l : list ascii) : Prop :=
  Forall (λ c, Py.is_continuation c = false) l.

End LsofAux.

(* ===================================================================== *)
(** ** check_status.py: the check of the .env file                        *)
(* ===================================================================== *)
Module CheckStatus.

(** [s[:n]] and [s[-n:]] for a positive [n]: the first and the last [n]
    characters, or the whole string when it has fewer. *)
Definition first_chars (n : nat) (s : string) : string :=
  string_of_list_ascii
    (concat (take n (Py.characters (list_ascii_of_string s)))).

Definition last_chars (n : nat) (s : string) : string :=
  let cs := Py.characters (list_ascii_of_string s) in
  string_of_list_ascii (concat (drop (length cs - n) cs)).

(** [masked_key = openai_key[:6] + "..." + openai_key[-4:]] *)
Definition masked_key (openai_key : string) : string :=
  first_chars 6 openai_key +:+ "..." +:+ last_chars 4 openai_key.

(** The first block of [check_credential_files], "Check .env file for
    OpenAI API key": the lines it prints.  [env_exists] is
    [env_path.exists()] and [openai_key] is what
    [os.getenv("OPENAI_API_KEY")] gives after [load_dotenv(env_path)]. *)
Definition check_env_file (env_exists : bool) (openai_key : option string)
  : list string :=
  if negb env_exists then
    [ "❌ .env file not found";
      "   Create a .env file with your OpenAI API key:" +:+ String Py.newline "";
      "   OPENAI_API_KEY=your_openai_api_key_here" +:+ String Py.newline "" ]
  else
    "✅ .env file found" ::
    match openai_key with
    | None => ["❌ OPENAI_API_KEY not found in .env file"]
    | Some openai_key =>
        if negb (Py.truthy_str openai_key) then
          ["❌ OPENAI_API_KEY not found in .env file"]
        else if String.eqb openai_key "your_openai_api_key_here" then
          ["❌ OPENAI_API_KEY is set to the default value. Please update it."]
        else ["✅ OPENAI_API_KEY found: " +:+ masked_key openai_key]
    end.

(** A list of bytes that is one character: a byte followed by
    continuation bytes only. *)
Definition is_character (ch : list ascii) : Prop :=
  match ch with
  | _ :: r => Forall (λ d, Py.is_continuation d = true) r
  | [] => False
  end.

(** A character that can stand behind another one: its first byte is not
    a continuation byte. *)
Definition starts_character (ch : list ascii) : Prop :=
  match ch with c :: _ => Py.is_continuation c = false | [] => False end.

(** The three dots, character by character. *)
Definition dots : list (list ascii) := [["."%char]; ["."%char]; ["."%char]].

End CheckStatus.

(* ===================================================================== *)
(** ** Properties of bot.py                                               *)
(* ===================================================================== *)
Module BotSpec.
Import Bot.

(** *** Translation stage *)

Lemma run_stage_cons self frame direction input :
  run_stage self ((frame, direction) :: input) =
  process_frame self frame direction ++ run_stage self input.
Proof. reflexivity. Qed.

Lemma process_frame_single self frame direction :
  ∃ out, process_frame self frame direction = [out].
Proof. destruct frame; simpl; eauto. Qed.

Lemma run_stage_length self input :
  length (run_stage self input) = length input.
Proof.
  induction input as [|[frame direction] input IH]; [done|].
  rewrite run_stage_cons.
  destruct (process_frame_single self frame direction) as [out ->].
  simpl. by rewrite IH.
Qed.

Lemma run_stage_lookup self input (i : nat) frame direction :
  input !! i = Some (frame, direction) →
  process_frame self frame direction = [default frame (run_stage self input !! i)]
  ∧ is_Some (run_stage self input !! i).
Proof.
  revert i. induction input as [|[f d] input IH]; intros i Hi; [done|].
  rewrite run_stage_cons.
  destruct (process_frame_single self f d) as [out Hout]. rewrite Hout.
  destruct i as [|i]; simpl in *.
  - injection Hi as -> ->. rewrite Hout. eauto.
  - by apply IH.
Qed.

(** C7.  The translation stage answers every incoming frame with exactly
    one outgoing frame, at the same position of the stream.  For a
    recognized-speech frame carrying text [T] that frame is a translation
    request of two messages: a system message whose content is the fixed
    sentence naming the configured source language and the configured
    target language and asking only for a translation, and a user message
    whose content is [T] itself.  A frame of any other kind is pushed on
    as it came. *)
Theorem C7_translation_stage (self : TranslationProcessor)
    (input : list (Frame * FrameDirection)) :
  length (run_stage self input) = length input ∧
  ∀ (i : nat) frame direction,
    input !! i = Some (frame, direction) →
    run_stage self input !! i =
      Some match frame with
           | TranscriptionFrame T _ _ =>
               LLMMessagesFrame
                 [ [("role", "system");
                    ("content",
                     "You will be provided with a sentence in " +:+
                     _in_language self +:+
                     ", and your task is to only translate it into " +:+
                     _out_language self +:+ ".")];
                   [("role", "user"); ("content", T)] ]
           | _ => frame
           end.
Proof.
  split; [apply run_stage_length|].
  intros i frame direction Hi.
  destruct (run_stage_lookup self input i frame direction Hi) as [Hout [out Hsome]].
  rewrite Hsome in Hout |- *. simpl in Hout.
  destruct frame; simpl in Hout; injection Hout as <-; reflexivity.
Qed.

Lemma C7_translation_stage_witness :
  run_stage Examples.tp Examples.stream !! 1%nat =
  Some (LLMMessagesFrame
          [ [("role", "system");
             ("content",
              "You will be provided with a sentence in Bengali, and your task is to only translate it into English.")];
            [("role", "user"); ("content", Examples.utterance)] ]).
Proof.
  exact (proj2 (C7_translation_stage Examples.tp Examples.stream) 1%nat
           _ DOWNSTREAM eq_refl).
Defined.

(** *** Transcript aggregator *)

Lemma run_updates_cons self batch batches :
  run_updates self (batch :: batches) =
  run_updates (handler (on_transcript_update self batch)) batches.
Proof. reflexivity. Qed.

Lemma run_updates_spec self batches :
  messages (run_updates self batches) = messages self ++ concat batches
  ∧ in_language (run_updates self batches) = in_language self
  ∧ out_language (run_updates self batches) = out_language self.
Proof.
  revert self. induction batches as [|batch batches IH]; intros self.
  - simpl. by rewrite app_nil_r.
  - rewrite run_updates_cons.
    destruct (IH (handler (on_transcript_update self batch))) as (-> & -> & ->).
    simpl. by rewrite <- app_assoc.
Qed.

(** Whatever batches of transcript updates arrive, the log after them is
    the log before them followed by the entries of the batches in arrival
    order, so no earlier entry is dropped or moved.  The dictionary built
    for each entry of a batch, which the loop then drops, has the entry's
    timestamp, role and text, with the target language when the role is
    [assistant] and the source language otherwise. *)
Lemma transcript_updates_spec (self : TranscriptHandler)
    (batches : list (list TranscriptionMessage))
    (batch : list TranscriptionMessage) :
  messages (run_updates self batches) = messages self ++ concat batches
  ∧ messages (handler (on_transcript_update self batch)) = messages self ++ batch
  ∧ map m_language (records (on_transcript_update self batch)) =
      map (λ msg, if String.eqb (role msg) "assistant"
                  then out_language self else in_language self) batch
  ∧ map m_role (records (on_transcript_update self batch)) = map role batch
  ∧ map m_text (records (on_transcript_update self batch)) = map content batch
  ∧ map m_timestamp (records (on_transcript_update self batch)) = map timestamp batch.
Proof.
  split; [apply run_updates_spec|].
  split; [reflexivity|].
  unfold on_transcript_update; simpl.
  rewrite !map_map. repeat split; reflexivity.
Qed.

(** What is given to [logger.info] is the header and one line per entry,
    made of the entry alone: the languages of the handler have no part in
    it. *)
Lemma logged_spec (self : TranscriptHandler) (batch : list TranscriptionMessage) :
  logged (on_transcript_update self batch) =
  "New transcript messages:" ::
  map (λ msg,
         (if truthy_opt_str (timestamp msg)
          then "[" +:+ default "" (timestamp msg) +:+ "] " else "") +:+
         role msg +:+ ": " +:+ content msg) batch.
Proof. reflexivity. Qed.

(** C8, at the input where it fails.  The handler that [main] builds
    gets the entry [user: hola] and then the entry [assistant: hello].
    Both are appended to the log, in this order.  For each of them the
    dictionary with the resolved language is built ([Bengali] for the
    first, [English] for the second) and dropped: what is emitted is the
    header line and the line [role: text], with the timestamp in front
    when there is one.  No emitted line carries a language, and a handler
    built with any other two languages emits the very same lines. *)
Theorem C8_emitted_lines_carry_no_language :
  let h1 := on_transcript_update Examples.transcript_handler [Examples.hola] in
  let h2 := on_transcript_update (handler h1) [Examples.hello] in
  messages (handler h2) = [Examples.hola; Examples.hello]
  ∧ map m_language (records h1 ++ records h2) = ["Bengali"; "English"]
  ∧ logged h1 = ["New transcript messages:"; "user: hola"]
  ∧ logged h2 = ["New transcript messages:"; "[00:00:01] assistant: hello"]
  ∧ ∀ in_language out_language : option string,
      let g1 :=
        on_transcript_update (TranscriptHandler_init in_language out_language)
          [Examples.hola] in
      let g2 := on_transcript_update (handler g1) [Examples.hello] in
      logged g1 = logged h1 ∧ logged g2 = logged h2.
Proof. repeat split; reflexivity. Qed.

(** The two batches of the specification's example. *)
Example transcript_two_batches :
  let h1 := on_transcript_update Examples.transcript_handler [Examples.hola] in
  let h2 := on_transcript_update (handler h1) [Examples.hello] in
  messages (handler h2) = [Examples.hola; Examples.hello]
  ∧ map m_language (records h1) = ["Bengali"]
  ∧ map m_language (records h2) = ["English"]
  ∧ logged h2 = ["New transcript messages:"; "[00:00:01] assistant: hello"].
Proof. repeat split; reflexivity. Qed.

(** *** Session timeout *)

Lemma on_session_timeout_spec client l :
  on_session_timeout client l =
  {| now := now l;
     queued := queued l ++ [BotInterruptionFrame];
     sleeping := sleeping l ++ [now l + 3] |}.
Proof. reflexivity. Qed.

Lemma run_timeouts clients l :
  run (map IdleTimeout clients) l =
  {| now := now l;
     queued := queued l ++ replicate (length clients) BotInterruptionFrame;
     sleeping := sleeping l ++ replicate (length clients) (now l + 3) |}.
Proof.
  revert l. induction clients as [|client clients IH]; intros l.
  - destruct l; simpl. by rewrite !app_nil_r.
  - change (run (map IdleTimeout (client :: clients)) l)
      with (run (map IdleTimeout clients) (on_session_timeout client l)).
    rewrite IH, on_session_timeout_spec. simpl.
    by rewrite <- !app_assoc.
Qed.

Lemma resume_all (due : list Z) l :
  fold_left (λ l _, _end_call l) due l =
  {| now := now l;
     queued := queued l ++
               concat (map (λ _, [BotInterruptionFrame; EndFrame]) due);
     sleeping := sleeping l |}.
Proof.
  revert l. induction due as [|d due IH]; intros l.
  - destruct l; simpl. by rewrite app_nil_r.
  - simpl fold_left. rewrite IH. simpl. by rewrite <- app_assoc.
Qed.

(** C2, as the program has it.  Every idle-timeout notification is
    handled in the same way whatever came before it: it injects one
    interruption signal and schedules one grace timer of its own, three
    seconds ahead.  So [n] notifications with no time passing between them
    inject [n] interruption signals and leave [n] more timers pending; and
    when time passes, every timer that is due injects an interruption
    signal followed by an end signal and is no longer pending. *)
Theorem C2_every_timeout_schedules_a_timer (l : loop) (clients : list string)
    (dt : Z) :
  run (map IdleTimeout clients) l =
    {| now := now l;
       queued := queued l ++ replicate (length clients) BotInterruptionFrame;
       sleeping := sleeping l ++ replicate (length clients) (now l + 3) |}
  ∧ queued (step l (Elapse dt)) =
      queued l ++
      concat (map (λ _, [BotInterruptionFrame; EndFrame])
                (filter (λ d, d ≤ now l + dt) (sleeping l)))
  ∧ sleeping (step l (Elapse dt)) =
      filter (λ d, ¬ d ≤ now l + dt) (sleeping l).
Proof.
  split; [apply run_timeouts|].
  simpl. unfold advance. rewrite resume_all. simpl. done.
Qed.

(** Two notifications in quick succession: after the first, one timer is
    pending and one interruption has been injected; after the second, two
    timers are pending and two interruptions have been injected; three
    seconds later each timer has injected its own interruption and end
    signal. *)
Lemma C2_second_timeout_not_ignored :
  let l1 := step loop_init (IdleTimeout "127.0.0.1") in
  let l2 := step l1 (IdleTimeout "127.0.0.1") in
  sleeping l1 = [3] ∧ queued l1 = [BotInterruptionFrame]
  ∧ l2 ≠ l1
  ∧ sleeping l2 = [3; 3]
  ∧ queued l2 = [BotInterruptionFrame; BotInterruptionFrame]
  ∧ queued (step l2 (Elapse 3)) =
      [BotInterruptionFrame; BotInterruptionFrame;
       BotInterruptionFrame; EndFrame; BotInterruptionFrame; EndFrame].
Proof. repeat split; try reflexivity. discriminate. Qed.

End BotSpec.

(* ===================================================================== *)
(** ** Properties of server.py                                            *)
(* ===================================================================== *)
Module ServerSpec.
Import Server ServerAux.

(** *** Actions that only trace *)

Section Tracing.
Context {P : effect -> bool}.

Lemma world_eta w : {| srv := srv w; trace := trace w ++ [] |} = w.
Proof. destruct w; simpl. by rewrite app_nil_r. Qed.

Lemma tracing_ret {A} (a : A) : tracing P (mret a).
Proof. exists (inr a), []. split; [done|]. intros w. by rewrite world_eta. Qed.

Lemma tracing_raise {A} ex : tracing P (@raise A ex).
Proof. exists (inl ex), []. split; [done|]. intros w. by rewrite world_eta. Qed.

Lemma tracing_lift {A} (r : result A) : tracing P (lift r).
Proof. exists r, []. split; [done|]. intros w. by rewrite world_eta. Qed.

Lemma tracing_emit x : P x = true → tracing P (emit x).
Proof. intros Hx. exists (inr tt), [x]. split; [simpl; by rewrite Hx|done]. Qed.

Lemma tracing_bind {A B} (m : M A) (f : A → M B) :
  tracing P m → (∀ a, tracing P (f a)) → tracing P (m ≫= f).
Proof.
  intros (r & tr & Htr & Hm) Hf. destruct r as [ex|a].
  - exists (inl ex), tr. split; [done|]. intros w.
    unfold mbind, M_bind. by rewrite Hm.
  - destruct (Hf a) as (r' & tr' & Htr' & Hfa).
    exists r', (tr ++ tr'). split.
    + rewrite forallb_app, Htr, Htr'. done.
    + intros w. unfold mbind, M_bind. rewrite Hm, Hfa. simpl.
      by rewrite <- app_assoc.
Qed.

Lemma tracing_try {A} (body : M A) catches handler :
  tracing P body → (∀ ex, tracing P (handler ex)) →
  tracing P (try_except body catches handler).
Proof.
  intros (r & tr & Htr & Hm) Hh. destruct r as [ex|a].
  - destruct (catches ex) eqn:Hc.
    + destruct (Hh ex) as (r' & tr' & Htr' & Hhe).
      exists r', (tr ++ tr'). split.
      * rewrite forallb_app, Htr, Htr'. done.
      * intros w. unfold try_except. rewrite Hm, Hc, Hhe. simpl.
        by rewrite <- app_assoc.
    + exists (inl ex), tr. split; [done|]. intros w.
      unfold try_except. by rewrite Hm, Hc.
  - exists (inr a), tr. split; [done|]. intros w.
    unfold try_except. by rewrite Hm.
Qed.
End Tracing.

Ltac tracing_step :=
  first
    [ apply tracing_ret | apply tracing_raise | apply tracing_lift
    | apply tracing_emit; reflexivity
    | apply tracing_try; [|intros ?]
    | apply tracing_bind; [|intros ?] ].

Lemma tracing_int_ s : tracing frees_port (int_ s).
Proof. unfold int_. destruct (Py.int s); tracing_step. Qed.

Lemma tracing_kill_port_pids e killed port_pids :
  tracing frees_port (kill_port_pids e killed port_pids).
Proof.
  induction port_pids as [|port_pid rest IH]; simpl.
  - tracing_step.
  - apply tracing_bind; [|intros _; exact IH].
    apply tracing_try; [|intros ?; tracing_step].
    apply tracing_bind; [apply tracing_int_|intros n].
    unfold os_kill_, print. repeat tracing_step.
Qed.

Lemma tracing_kill_port_holders e port killed :
  tracing frees_port (kill_port_holders e port killed).
Proof.
  unfold kill_port_holders, run.
  destruct (String.eqb (platform e) "win32").
  - repeat tracing_step.
  - apply tracing_try; [|intros ?; repeat tracing_step].
    apply tracing_bind; [repeat tracing_step|intros out].
    destruct (Py.truthy_str out); [apply tracing_kill_port_pids|tracing_step].
Qed.

Lemma tracing_free_port_8765 e : tracing frees_port (free_port_8765 e).
Proof.
  unfold free_port_8765, is_port_in_use.
  apply tracing_bind; [repeat tracing_step|intros in_use].
  destruct in_use; [|tracing_step].
  unfold print, sleep.
  apply tracing_bind; [repeat tracing_step|intros _].
  apply tracing_bind; [apply tracing_kill_port_holders|intros _].
  tracing_step.
Qed.

(** The port step runs the same way from every state: it leaves the
    dictionaries alone and appends its calls to the trace. *)
Lemma free_port_8765_frame e w :
  free_port_8765 e w =
  ((port_step e).1, {| srv := srv w; trace := trace w ++ (port_step e).2 |}).
Proof.
  destruct (tracing_free_port_8765 e) as (r & tr & _ & H).
  unfold port_step. rewrite !H. done.
Qed.

Lemma port_step_effects e : forallb frees_port (port_step e).2 = true.
Proof.
  destruct (tracing_free_port_8765 e) as (r & tr & Htr & H).
  unfold port_step. rewrite H. done.
Qed.

(** *** The reader threads *)

Lemma read_output_spec log_type pid line s :
  active_processes (read_output log_type pid line s) = active_processes s
  ∧ process_logs (read_output log_type pid line s) !! pid =
    (λ l, {| stdout := stdout l ++ stored "stdout" [(log_type, line)];
             stderr := stderr l ++ stored "stderr" [(log_type, line)] |})
      <$> process_logs s !! pid
  ∧ delete pid (process_logs (read_output log_type pid line s)) =
    delete pid (process_logs s).
Proof.
  unfold read_output, stored.
  destruct (process_logs s !! pid) as [l|] eqn:Hl; simpl;
    [|by rewrite Hl].
  split; [done|]. split; [|apply delete_insert_eq].
  rewrite lookup_insert_eq. f_equal.
  destruct (String.eqb_spec log_type "stdout") as [->|Hout]; simpl.
  - by rewrite app_nil_r.
  - destruct (String.eqb_spec log_type "stderr") as [->|Herr]; simpl.
    + by rewrite app_nil_r.
    + destruct l. simpl. by rewrite !app_nil_r.
Qed.

Lemma read_all_spec pid lines s :
  let s' := read_all pid lines s in
  active_processes s' = active_processes s
  ∧ process_logs s' !! pid =
    (λ l, {| stdout := stdout l ++ stored "stdout" lines;
             stderr := stderr l ++ stored "stderr" lines |})
      <$> process_logs s !! pid
  ∧ delete pid (process_logs s') = delete pid (process_logs s).
Proof.
  revert s. induction lines as [|[log_type line] lines IH]; intros s.
  - simpl. split; [done|]. split; [|done].
    destruct (process_logs s !! pid) as [[out err]|]; simpl; [|done].
    by rewrite !app_nil_r.
  - cbv zeta. change (read_all pid ((log_type, line) :: lines) s)
      with (read_all pid lines (read_output log_type pid line s)).
    destruct (IH (read_output log_type pid line s)) as (-> & -> & ->).
    destruct (read_output_spec log_type pid line s) as (-> & -> & ->).
    split; [done|]. split; [|done].
    destruct (process_logs s !! pid) as [[out err]|]; simpl; [|done].
    f_equal. unfold stored. simpl.
    destruct (String.eqb log_type "stdout"), (String.eqb log_type "stderr");
      simpl; by rewrite <- ?app_assoc, ?app_nil_r.
Qed.

Lemma server_eq (s1 s2 : server) :
  active_processes s1 = active_processes s2 →
  process_logs s1 = process_logs s2 → s1 = s2.
Proof. destruct s1, s2; simpl. by intros -> ->. Qed.

(** The tables when the handler wakes up: the child is tracked, and its
    log record holds what its reader threads have stored meanwhile and
    nothing else. *)
Lemma started_spec e s pid :
  started e s pid =
  {| active_processes :=
       <[pid := {| pid := pid; returncode := None |}]> (active_processes s);
     process_logs :=
       <[pid := {| stdout := stored "stdout" (read_lines e pid);
                   stderr := stored "stderr" (read_lines e pid) |}]>
         (process_logs s) |}.
Proof.
  unfold started.
  destruct (read_all_spec pid (read_lines e pid) (spawned s pid))
    as (Hactive & Hpid & Hrest).
  apply server_eq; [done|]. simpl in *.
  rewrite lookup_insert_eq in Hpid. simpl in Hpid.
  apply map_eq. intros k. destruct (decide (k = pid)) as [->|Hk].
  - by rewrite lookup_insert_eq.
  - apply (f_equal (λ d, d !! k)) in Hrest.
    rewrite !lookup_delete_ne, lookup_insert_ne in Hrest by done.
    by rewrite lookup_insert_ne.
Qed.

(** *** _start_bot, case by case *)

Lemma handle_start e s :
  handle (Start e) s =
  match (port_step e).1 with
  | inl ex =>
      (s, Some (error_500 ex),
       (port_step e).2 ++ [Print ("Error starting bot.py: " +:+ str_exn ex)])
  | inr _ =>
      if negb (path_exists e (creds_path e)) then
        (s,
         Some (respond_200 [("success", JBool false);
                            ("error", JStr (creds_missing_error e))]),
         (port_step e).2 ++
         [Exists (creds_path e);
          Print ("Google Cloud credentials file not found at " +:+ creds_path e)])
      else if negb (path_exists e (env_path e)) then
        (s,
         Some (respond_200 [("success", JBool false);
                            ("error", JStr (env_missing_error e))]),
         (port_step e).2 ++
         [Exists (creds_path e); Exists (env_path e);
          Print (".env file not found at " +:+ env_path e)])
      else
        let before :=
          (port_step e).2 ++
          [Exists (creds_path e); Exists (env_path e);
           Print ("Starting bot.py from " +:+ SCRIPT_DIR e);
           Spawn (start_argv e) (SCRIPT_DIR e)] in
        match popen e (start_argv e) (SCRIPT_DIR e) with
        | inl ex =>
            (s, Some (error_500 ex),
             before ++ [Print ("Error starting bot.py: " +:+ str_exn ex)])
        | inr p =>
            let pid := Z.pos p in
            let polled :=
              before ++ [Thread_start "stdout" pid; Thread_start "stderr" pid;
                         Sleep 0.5; Poll pid] in
            match poll e pid with
            | Some code =>
                (exited e s pid code,
                 Some (respond_500
                         [("success", JBool false);
                          ("error",
                           JStr ("Bot failed to start (exit code " +:+
                                 Py.str_of_int code +:+ "): " +:+
                                 (communicate e pid).2))]),
                 polled ++
                 [Communicate pid;
                  Print ("Bot process exited immediately with code " +:+
                         Py.str_of_int code);
                  Print ("STDOUT: " +:+ (communicate e pid).1);
                  Print ("STDERR: " +:+ (communicate e pid).2)])
            | None =>
                (started e s pid,
                 Some (respond_200 [("success", JBool true); ("pid", JInt pid)]),
                 polled ++
                 [Print ("Started bot.py process with PID: " +:+
                         Py.str_of_int pid)])
            end
        end
  end.
Proof.
  unfold handle, _start_bot, try_except, start_bot_body.
  unfold mbind at 1, M_bind at 1. rewrite free_port_8765_frame.
  destruct (port_step e) as [[ex|[]] tr]; simpl.
  - done.
  - unfold start_argv, start_process, Popen_, poll_, communicate_, exists_,
      reader_threads, start_reader, sleep, print, emit, lift, get_server,
      put_server, mbind, M_bind, mret, M_ret; simpl.
    destruct (path_exists e (creds_path e)); simpl;
      [|by rewrite <- !app_assoc].
    destruct (path_exists e (env_path e)); simpl;
      [|by rewrite <- !app_assoc].
    destruct (popen e _ _) as [ex|p]; simpl; [by rewrite <- !app_assoc|].
    destruct (poll e (Z.pos p)) as [code|]; simpl.
    + destruct (communicate e (Z.pos p)) as [output error]; simpl.
      by rewrite <- !app_assoc.
    + by rewrite <- !app_assoc.
Qed.

(** *** _stop_bot, case by case *)

Lemma kill_port_holders_frame e port killed w :
  kill_port_holders e port killed w =
  ((kill_port_holders e port killed {| srv := server_init; trace := [] |}).1,
   {| srv := srv w;
      trace := trace w ++
               trace (kill_port_holders e port killed
                        {| srv := server_init; trace := [] |}).2 |}).
Proof.
  destruct (tracing_kill_port_holders e port killed) as (r & tr & _ & H).
  rewrite !H. done.
Qed.

Lemma handle_stop e data s :
  handle (Stop e data) s =
  if Py.truthy_int (force_port data) then
    match (force_port_step e (force_port data)).1 with
    | inl ex =>
        (s, Some (error_500 ex),
         (force_port_step e (force_port data)).2 ++ [stop_error_line data ex])
    | inr _ => (s, Some success_response, (force_port_step e (force_port data)).2)
    end
  else
    match lookup_truthy (req_pid data) (active_processes s) with
    | None => (s, Some not_found_response, [])
    | Some (pid, process) =>
        let killed := Print ("Force killed bot process with PID: " +:+
                             Py.str_of_int pid) in
        let wait_3 := Wait (Server.pid process) 3 in
        if force data then
          match (hard e process pid).2 with
          | inl ex =>
              (s, Some (error_500 ex),
               [(hard e process pid).1; stop_error_line data ex])
          | inr _ =>
              (stopped s pid, Some success_response,
               [(hard e process pid).1; killed])
          end
        else
          match (graceful e process pid).2 with
          | inl ex =>
              (s, Some (error_500 ex),
               [(graceful e process pid).1; stop_error_line data ex])
          | inr _ =>
              match wait e (Server.pid process) 3 with
              | inr _ =>
                  (stopped s pid, Some success_response,
                   [(graceful e process pid).1; wait_3;
                    Print ("Successfully terminated bot process with PID: " +:+
                           Py.str_of_int pid)])
              | inl ex =>
                  if is_TimeoutExpired ex then
                    match (hard e process pid).2 with
                    | inl ex' =>
                        (s, Some (error_500 ex'),
                         [(graceful e process pid).1; wait_3;
                          (hard e process pid).1; stop_error_line data ex'])
                    | inr _ =>
                        (stopped s pid, Some success_response,
                         [(graceful e process pid).1; wait_3;
                          (hard e process pid).1; killed])
                    end
                  else
                    (s, Some (error_500 ex),
                     [(graceful e process pid).1; wait_3;
                      stop_error_line data ex])
              end
          end
    end.
Proof.
  unfold handle, _stop_bot, try_except, stop_bot_body.
  destruct (Py.truthy_int (force_port data)).
  - unfold mbind at 1, M_bind at 1. rewrite kill_port_holders_frame.
    unfold force_port_step.
    destruct (kill_port_holders e _ _ _) as [[ex|[]] w]; simpl; done.
  - unfold mbind at 1, M_bind at 1; simpl.
    destruct (lookup_truthy (req_pid data) (active_processes s))
      as [[pid process]|]; [|done].
    unfold hard_kill, graceful, hard, kill_, terminate_, wait_, os_kill_,
      try_except, print, emit, lift, get_server, put_server,
      mbind, M_bind, mret, M_ret, stopped, stop_error_line.
    destruct (force data), (String.eqb (platform e) "win32"); simpl.
    + destruct (kill e (Server.pid process)) as [ex|[]]; done.
    + destruct (os_kill e pid SIGKILL) as [ex|[]]; done.
    + destruct (terminate e (Server.pid process)) as [ex|[]]; simpl; [done|].
      destruct (wait e (Server.pid process) 3) as [ex|code]; simpl; [|done].
      destruct (is_TimeoutExpired ex); simpl; [|done].
      destruct (kill e (Server.pid process)) as [ex'|[]]; done.
    + destruct (os_kill e pid SIGTERM) as [ex|[]]; simpl; [done|].
      destruct (wait e (Server.pid process) 3) as [ex|code]; simpl; [|done].
      destruct (is_TimeoutExpired ex); simpl; [|done].
      destruct (os_kill e pid SIGKILL) as [ex'|[]]; done.
Qed.

(** *** Which starts spawn *)

(** [H : x ∈ [x1; ...; xn]] where [x] differs from every [xi] by its
    constructor. *)
Ltac absent H :=
  repeat (apply elem_of_cons in H as [H|H]; [discriminate H|]);
  apply elem_of_nil in H.

Lemma not_in_port_step e x : frees_port x = false → x ∉ (port_step e).2.
Proof.
  intros Hx Hin. pose proof (port_step_effects e) as Hall.
  rewrite forallb_forall in Hall.
  apply list_elem_of_In, Hall in Hin. congruence.
Qed.

(** A start whose trace has the [Spawn] call got through the port step
    and found both files. *)
Lemma spawn_inv e s :
  Spawn (start_argv e) (SCRIPT_DIR e) ∈ trace_of (Start e) s →
  (∃ u, (port_step e).1 = inr u)
  ∧ path_exists e (creds_path e) = true
  ∧ path_exists e (env_path e) = true.
Proof.
  unfold trace_of. rewrite handle_start.
  assert (∀ l, Spawn (start_argv e) (SCRIPT_DIR e) ∈ (port_step e).2 ++ l →
               Spawn (start_argv e) (SCRIPT_DIR e) ∈ l) as Htail.
  { intros l [Hin|Hin]%elem_of_app; [|done].
    by apply not_in_port_step in Hin. }
  destruct (port_step e).1 as [ex|u]; simpl.
  - intros Hin%Htail. by absent Hin.
  - destruct (path_exists e (creds_path e)); simpl;
      [|intros Hin%Htail; by absent Hin].
    destruct (path_exists e (env_path e)); simpl;
      [|intros Hin%Htail; by absent Hin].
    eauto.
Qed.

(** What a start that spawned child [p] does, by the child's status at
    the poll. *)
Lemma handle_start_spawned e s p :
  Spawn (start_argv e) (SCRIPT_DIR e) ∈ trace_of (Start e) s →
  popen e (start_argv e) (SCRIPT_DIR e) = inr p →
  let pid := Z.pos p in
  let polled :=
    (port_step e).2 ++
    [Exists (creds_path e); Exists (env_path e);
     Print ("Starting bot.py from " +:+ SCRIPT_DIR e);
     Spawn (start_argv e) (SCRIPT_DIR e);
     Thread_start "stdout" pid; Thread_start "stderr" pid] ++
    [Sleep 0.5; Poll pid] in
  handle (Start e) s =
  match poll e pid with
  | Some code =>
      (exited e s pid code,
       Some (respond_500
               [("success", JBool false);
                ("error",
                 JStr ("Bot failed to start (exit code " +:+
                       Py.str_of_int code +:+ "): " +:+
                       (communicate e pid).2))]),
       polled ++
       [Communicate pid;
        Print ("Bot process exited immediately with code " +:+
               Py.str_of_int code);
        Print ("STDOUT: " +:+ (communicate e pid).1);
        Print ("STDERR: " +:+ (communicate e pid).2)])
  | None =>
      (started e s pid,
       Some (respond_200 [("success", JBool true); ("pid", JInt pid)]),
       polled ++
       [Print ("Started bot.py process with PID: " +:+ Py.str_of_int pid)])
  end.
Proof.
  intros ([u Hport] & Hcreds & Henv)%spawn_inv Hpopen. cbv zeta.
  rewrite handle_start, Hport, Hcreds, Henv, Hpopen. simpl.
  destruct (poll e (Z.pos p)); simpl; by rewrite <- !app_assoc.
Qed.

(** A start that spawns a worker sleeps for half a second and then polls
    the child, and that is the only poll of the whole call.  If the child
    has exited by then, the answer is a failure (status 500) whose error
    text is the exit code followed by the error output that
    [communicate] still found in the pipe; what it found of the standard
    output is printed and is not part of the answer.  If the child is
    still alive, the answer is a success carrying the child's process
    id. *)
Lemma start_liveness_check (e : env) (s : server) (p : positive) :
  Spawn (start_argv e) (SCRIPT_DIR e) ∈ trace_of (Start e) s →
  popen e (start_argv e) (SCRIPT_DIR e) = inr p →
  let pid := Z.pos p in
  ∃ before after,
    trace_of (Start e) s = before ++ [Sleep 0.5; Poll pid] ++ after
    ∧ existsb is_Poll (before ++ after) = false
    ∧ match poll e pid with
      | Some code =>
          response_of (Start e) s =
            Some (respond_500
                    [("success", JBool false);
                     ("error",
                      JStr ("Bot failed to start (exit code " +:+
                            Py.str_of_int code +:+ "): " +:+
                            (communicate e pid).2))])
          ∧ after =
              [Communicate pid;
               Print ("Bot process exited immediately with code " +:+
                      Py.str_of_int code);
               Print ("STDOUT: " +:+ (communicate e pid).1);
               Print ("STDERR: " +:+ (communicate e pid).2)]
      | None =>
          response_of (Start e) s =
            Some (respond_200 [("success", JBool true); ("pid", JInt pid)])
          ∧ after =
              [Print ("Started bot.py process with PID: " +:+
                      Py.str_of_int pid)]
      end.
Proof.
  intros Hspawn Hpopen pid.
  pose proof (handle_start_spawned e s p Hspawn Hpopen) as H. cbv zeta in H.
  assert (∀ l, forallb frees_port l = true → existsb is_Poll l = false) as Hno.
  { induction l as [|x l IH]; [done|]. simpl.
    intros [Hx Hl]%andb_prop. rewrite (IH Hl). by destruct x. }
  unfold trace_of, response_of. rewrite H. subst pid. clear H.
  set (six := [Exists (creds_path e); Exists (env_path e);
               Print ("Starting bot.py from " +:+ SCRIPT_DIR e);
               Spawn (start_argv e) (SCRIPT_DIR e);
               Thread_start "stdout" (Z.pos p); Thread_start "stderr" (Z.pos p)]).
  assert (existsb is_Poll ((port_step e).2 ++ six) = false) as Hbefore.
  { rewrite existsb_app, (Hno _ (port_step_effects e)). reflexivity. }
  destruct (poll e (Z.pos p)) as [code|]; cbn [fst snd];
    (eexists ((port_step e).2 ++ six), _; split;
       [rewrite <- !app_assoc; reflexivity|]);
    (split; [|done]);
    rewrite existsb_app, Hbefore; reflexivity.
Qed.

(** C4, at the input where it fails.  The worker dies at once and leaves
    two lines on its error stream.  The reader thread started before the
    sleep has read them by the time the handler wakes up, so they are in
    the log table and no longer in the pipe: [communicate] returns two
    empty strings, and the answer carries the exit code and no captured
    output at all. *)
Theorem C4_reader_threads_take_the_captured_output :
  let e := Examples.crashing_start in
  let s := after (Start e) server_init in
  stored "stderr" (read_lines e 4242) =
    ["Traceback (most recent call last):";
     "ModuleNotFoundError: No module named 'pipecat'"]
  ∧ communicate e 4242 = ("", "")
  ∧ response_of (Start e) server_init =
    Some (respond_500
            [("success", JBool false);
             ("error", JStr "Bot failed to start (exit code 1): ")])
  ∧ trace_of (Start e) server_init =
    [Connect_ex "localhost" 8765;
     Exists "/srv/translate/creds.json"; Exists "/srv/translate/.env";
     Print "Starting bot.py from /srv/translate";
     Spawn ["/usr/bin/python3"; "/srv/translate/bot.py"] "/srv/translate";
     Thread_start "stdout" 4242; Thread_start "stderr" 4242;
     Sleep 0.5; Poll 4242; Communicate 4242;
     Print "Bot process exited immediately with code 1";
     Print "STDOUT: "; Print "STDERR: "]
  ∧ process_logs s !! 4242 =
    Some {| stdout := [];
            stderr := ["Traceback (most recent call last):";
                       "ModuleNotFoundError: No module named 'pipecat'"] |}.
Proof. repeat split; reflexivity. Qed.

(** *** Missing artifacts *)

Lemma port_step_has_no (Q : effect → bool) e :
  (∀ x, frees_port x = true → Q x = false) →
  existsb Q (port_step e).2 = false.
Proof.
  intros HQ. pose proof (port_step_effects e) as Hall.
  induction (port_step e).2 as [|x l IH]; [done|]. simpl in *.
  apply andb_prop in Hall as [Hx Hl]. by rewrite (HQ x Hx), (IH Hl).
Qed.

Lemma port_step_no_spawn e : existsb is_Spawn (port_step e).2 = false.
Proof. apply port_step_has_no. by intros []. Qed.

(** The two messages can be told apart whatever the paths are. *)
Lemma missing_errors_differ e : creds_missing_error e ≠ env_missing_error e.
Proof. unfold creds_missing_error, env_missing_error. discriminate. Qed.

(** When [creds.json] or [.env] is absent, a start spawns nothing,
    leaves both tables as they were and answers with a failure.  Once
    the call has got as far as the two checks, that is, whenever the port
    step before them has returned, the answer is the structured error
    (status 200, [success] false) whose text names the missing file and
    its path: the credentials file if it is absent, the environment file
    otherwise; and the two texts are never the same. *)
Lemma missing_artifact (e : env) (s : server) :
  path_exists e (creds_path e) = false ∨ path_exists e (env_path e) = false →
  existsb is_Spawn (trace_of (Start e) s) = false
  ∧ after (Start e) s = s
  ∧ (∃ r, response_of (Start e) s = Some r
          ∧ body r !! 0%nat = Some ("success", JBool false))
  ∧ (∀ u, (port_step e).1 = inr u →
          response_of (Start e) s =
            Some (respond_200
                    [("success", JBool false);
                     ("error",
                      JStr (if path_exists e (creds_path e)
                            then ".env file not found at " +:+ env_path e +:+
                                 ". Please create this file with your OpenAI API key."
                            else "Google Cloud credentials file not found at " +:+
                                 creds_path e +:+
                                 ". Please create this file with your Google Cloud credentials."))]))
  ∧ creds_missing_error e ≠ env_missing_error e.
Proof.
  intros Hmissing.
  unfold trace_of, after, response_of. rewrite handle_start.
  pose proof (port_step_no_spawn e) as Hport.
  split; [|split; [|split; [|split]]].
  - destruct (port_step e).1 as [ex|u]; cbn [fst snd];
      [by rewrite existsb_app, Hport|].
    destruct (path_exists e (creds_path e)); cbn [negb fst snd];
      [|by rewrite existsb_app, Hport].
    destruct (path_exists e (env_path e)); cbn [negb fst snd];
      [|by rewrite existsb_app, Hport].
    by destruct Hmissing.
  - destruct (port_step e).1 as [ex|u]; [done|].
    destruct (path_exists e (creds_path e)); [|done].
    destruct (path_exists e (env_path e)); [|done].
    by destruct Hmissing.
  - destruct (port_step e).1 as [ex|u]; [by eexists|].
    destruct (path_exists e (creds_path e)); [|by eexists].
    destruct (path_exists e (env_path e)); [|by eexists].
    by destruct Hmissing.
  - intros u ->.
    destruct (path_exists e (creds_path e)); [|done].
    destruct (path_exists e (env_path e)); [|done].
    by destruct Hmissing.
  - apply missing_errors_differ.
Qed.

Example missing_artifact_on_a_quiet_host :
  response_of (Start Examples.start_without_creds) server_init =
    Some (respond_200
            [("success", JBool false);
             ("error",
              JStr "Google Cloud credentials file not found at /srv/translate/creds.json. Please create this file with your Google Cloud credentials.")])
  ∧ response_of (Start Examples.start_without_env) server_init =
    Some (respond_200
            [("success", JBool false);
             ("error",
              JStr ".env file not found at /srv/translate/.env. Please create this file with your OpenAI API key.")]).
Proof.
  split.
  - exact (proj1 (proj2 (proj2 (proj2
             (missing_artifact Examples.start_without_creds server_init
                (or_introl eq_refl))))) tt eq_refl).
  - exact (proj1 (proj2 (proj2 (proj2
             (missing_artifact Examples.start_without_env server_init
                (or_intror eq_refl))))) tt eq_refl).
Qed.

(** C5, at the input where it fails.  [creds.json] is absent, the port
    is bound and the host has neither [lsof] nor [pkill].  The start ends
    in the port step: the [FileNotFoundError] of [pkill] is not caught
    there, so the answer has status 500 and the text of that error.  The
    credentials file is never looked for and the answer does not name
    it. *)
Theorem C5_port_error_hides_the_missing_file :
  path_exists Examples.port_bound_no_tools_no_creds
    (creds_path Examples.port_bound_no_tools_no_creds) = false
  ∧ handle (Start Examples.port_bound_no_tools_no_creds) server_init =
    (server_init,
     Some (respond_500
             [("success", JBool false);
              ("error", JStr "[Errno 2] No such file or directory: 'pkill'")]),
     [Connect_ex "localhost" 8765;
      Print "Port 8765 is in use, attempting to free it...";
      Run ["lsof"; "-ti"; ":8765"];
      Run ["pkill"; "-f"; "bot.py"];
      Print "Error starting bot.py: [Errno 2] No such file or directory: 'pkill'"])
  ∧ response_of (Start Examples.port_bound_no_tools_no_creds) server_init ≠
    Some (respond_200
            [("success", JBool false);
             ("error",
              JStr "Google Cloud credentials file not found at /srv/translate/creds.json. Please create this file with your Google Cloud credentials.")])
  ∧ Exists (creds_path Examples.port_bound_no_tools_no_creds) ∉
    trace_of (Start Examples.port_bound_no_tools_no_creds) server_init.
Proof.
  split; [reflexivity|]. split; [reflexivity|]. split; [discriminate|].
  intros Hin. vm_compute in Hin. by absent Hin.
Qed.

(** *** Freeing the port *)

(** With the port free the port step is the probe alone. *)
Lemma port_step_free e :
  connect_ex e "localhost" 8765 ≠ 0 →
  port_step e = (inr tt, [Connect_ex "localhost" 8765]).
Proof.
  intros Hfree%Z.eqb_neq.
  unfold port_step, free_port_8765, is_port_in_use, emit, mbind, M_bind,
    mret, M_ret; simpl.
  by rewrite Hfree.
Qed.

(** A start goes on to the file checks exactly when the port step
    returns; when the port step raises, the [except Exception] clause
    answers and nothing else is done. *)
Lemma start_after_port_step e s :
  match (port_step e).1 with
  | inr _ =>
      ∃ rest, trace_of (Start e) s =
              (port_step e).2 ++ Exists (creds_path e) :: rest
  | inl ex =>
      handle (Start e) s =
      (s, Some (error_500 ex),
       (port_step e).2 ++ [Print ("Error starting bot.py: " +:+ str_exn ex)])
  end.
Proof.
  unfold trace_of. rewrite handle_start.
  destruct (port_step e).1 as [ex|u]; [done|].
  destruct (path_exists e (creds_path e)); cbn [negb fst snd]; [|by eexists].
  destruct (path_exists e (env_path e)); cbn [negb fst snd]; [|by eexists].
  destruct (popen e _ _) as [ex|p]; cbn [fst snd].
  - rewrite <- app_assoc. by eexists.
  - destruct (poll e (Z.pos p)); cbn [fst snd]; rewrite <- !app_assoc; by eexists.
Qed.

(** The loop over the pids that [lsof] printed: when every line reads as
    an integer and every signal is delivered or finds the process gone,
    the loop sends [SIGKILL] to each pid in turn and returns. *)
Lemma kill_port_pids_each e killed (lines : list string) (pids : list Z) w :
  Forall2 (λ line n, Py.int line = Some n) lines pids →
  Forall (λ n, os_kill e n SIGKILL = inr tt ∨
               ∃ msg, os_kill e n SIGKILL = inl (ProcessLookupError msg)) pids →
  ∃ tr, kill_port_pids e killed lines w =
          (inr tt, {| srv := srv w; trace := trace w ++ tr |})
        ∧ List.filter (λ x, negb (is_Print x)) tr =
          map (λ n, Os_kill n SIGKILL) pids.
Proof.
  intros Hlines. revert w.
  induction Hlines as [|line n lines pids Hline _ IH]; intros w Hkills.
  - exists []. split; [|done]. simpl. unfold mret, M_ret. by rewrite world_eta.
  - apply Forall_cons in Hkills as [Hkill Hkills].
    simpl kill_port_pids.
    unfold int_, os_kill_, print, emit, lift, try_except, mbind, M_bind,
      mret, M_ret. rewrite Hline. simpl.
    destruct Hkill as [->|[msg ->]]; simpl.
    + edestruct IH as (tr & -> & Htr); [done|]. simpl.
      exists (Os_kill n SIGKILL :: Print (killed line) :: tr).
      split; [by rewrite <- !app_assoc|].
      simpl. by rewrite Htr.
    + edestruct IH as (tr & -> & Htr); [done|]. simpl.
      exists (Os_kill n SIGKILL :: tr).
      split; [by rewrite <- app_assoc|].
      simpl. by rewrite Htr.
Qed.

(** The three ways the port step goes when its commands can be run: on
    win32 [taskkill]; elsewhere [lsof] and a [SIGKILL] for each pid it
    printed; [pkill] when [lsof] is not installed.  Each time the step
    returns after its pause of one second, and the start goes on. *)
Lemma port_step_taskkill e out :
  connect_ex e "localhost" 8765 = 0 →
  String.eqb (platform e) "win32" = true →
  subprocess_run e ["taskkill"; "/F"; "/IM"; "python.exe"] = inr out →
  port_step e =
    (inr tt,
     [Connect_ex "localhost" 8765;
      Print "Port 8765 is in use, attempting to free it...";
      Run ["taskkill"; "/F"; "/IM"; "python.exe"]; Sleep 1]).
Proof.
  intros Hbound Hwin Hrun.
  unfold port_step, free_port_8765, is_port_in_use, kill_port_holders, run,
    print, sleep, emit, lift, mbind, M_bind, mret, M_ret; simpl.
  rewrite Hbound, Hwin; simpl. by rewrite Hrun.
Qed.

Lemma port_step_pkill e msg out :
  connect_ex e "localhost" 8765 = 0 →
  String.eqb (platform e) "win32" = false →
  subprocess_run e ["lsof"; "-ti"; ":8765"] = inl (FileNotFoundError msg) →
  subprocess_run e ["pkill"; "-f"; "bot.py"] = inr out →
  port_step e =
    (inr tt,
     [Connect_ex "localhost" 8765;
      Print "Port 8765 is in use, attempting to free it...";
      Run ["lsof"; "-ti"; ":8765"]; Run ["pkill"; "-f"; "bot.py"]; Sleep 1]).
Proof.
  intros Hbound Hwin Hlsof Hpkill.
  unfold port_step, free_port_8765, is_port_in_use, kill_port_holders, run,
    try_except, print, sleep, emit, lift, mbind, M_bind, mret, M_ret; simpl.
  rewrite Hbound, Hwin; simpl. change (":" +:+ "8765") with ":8765".
  rewrite Hlsof; simpl. by rewrite Hpkill.
Qed.

Lemma port_step_lsof e out pids :
  connect_ex e "localhost" 8765 = 0 →
  String.eqb (platform e) "win32" = false →
  subprocess_run e ["lsof"; "-ti"; ":8765"] = inr out →
  Py.truthy_str out = true →
  Forall2 (λ line n, Py.int line = Some n)
    (Py.split Py.newline (Py.strip out)) pids →
  Forall (λ n, os_kill e n SIGKILL = inr tt ∨
               ∃ msg, os_kill e n SIGKILL = inl (ProcessLookupError msg)) pids →
  (port_step e).1 = inr tt
  ∧ List.filter (λ x, negb (is_Print x)) (port_step e).2 =
    [Connect_ex "localhost" 8765; Run ["lsof"; "-ti"; ":8765"]] ++
    map (λ n, Os_kill n SIGKILL) pids ++ [Sleep 1].
Proof.
  intros Hbound Hwin Hlsof Hout Hlines Hkills.
  unfold port_step, free_port_8765, is_port_in_use, kill_port_holders, run,
    try_except, print, sleep, emit, lift, mbind, M_bind, mret, M_ret; simpl.
  rewrite Hbound, Hwin; simpl. change (":" +:+ "8765") with ":8765".
  rewrite Hlsof; simpl. rewrite Hout.
  edestruct (kill_port_pids_each e) as (tr & -> & Htr); [exact Hlines|exact Hkills|].
  simpl. split; [done|].
  rewrite List.filter_app, Htr. done.
Qed.

(** C6, at the input where it fails.  The port is bound and the host has
    neither [lsof] nor [pkill]: the [FileNotFoundError] of [lsof] is
    caught and [pkill] is tried, the [FileNotFoundError] of [pkill] is
    not caught, and the start ends there with status 500; neither file
    is looked for and nothing is spawned. *)
Theorem C6_start_fails_when_fallback_is_missing :
  Examples.not_installed ["lsof"; "-ti"; ":8765"] =
    inl (FileNotFoundError "[Errno 2] No such file or directory: 'lsof'")
  ∧ handle (Start Examples.port_bound_no_tools) server_init =
    (server_init,
     Some (respond_500
             [("success", JBool false);
              ("error", JStr "[Errno 2] No such file or directory: 'pkill'")]),
     [Connect_ex "localhost" 8765;
      Print "Port 8765 is in use, attempting to free it...";
      Run ["lsof"; "-ti"; ":8765"];
      Run ["pkill"; "-f"; "bot.py"];
      Print "Error starting bot.py: [Errno 2] No such file or directory: 'pkill'"]).
Proof. split; reflexivity. Qed.

(** *** Stopping a worker *)

Lemma lookup_truthy_Some {V} (d : gmap Z V) pid v :
  pid ≠ 0 → d !! pid = Some v → lookup_truthy (Some pid) d = Some (pid, v).
Proof.
  intros Hpid Hv. unfold lookup_truthy; simpl.
  apply Z.eqb_neq in Hpid. rewrite Hpid. simpl. by rewrite Hv.
Qed.

(** A graceful stop of a tracked worker whose signals are delivered:
    the graceful signal, a wait of at most three seconds, the hard signal
    only if the wait timed out; then the pid is out of the table and the
    logs are as before. *)
Lemma stop_graceful e data s pid process :
  Py.truthy_int (force_port data) = false →
  req_pid data = Some pid → pid ≠ 0 →
  active_processes s !! pid = Some process →
  force data = false →
  (graceful e process pid).2 = inr tt →
  (hard e process pid).2 = inr tt →
  handle (Stop e data) s =
    (stopped s pid, Some success_response,
     match wait e (Server.pid process) 3 with
     | inr _ =>
         [(graceful e process pid).1; Wait (Server.pid process) 3;
          Print ("Successfully terminated bot process with PID: " +:+
                 Py.str_of_int pid)]
     | inl _ =>
         [(graceful e process pid).1; Wait (Server.pid process) 3;
          (hard e process pid).1;
          Print ("Force killed bot process with PID: " +:+ Py.str_of_int pid)]
     end)
  ∨ (∃ ex, wait e (Server.pid process) 3 = inl ex ∧ is_TimeoutExpired ex = false)
.
Proof.
  intros Hport Hreq Hpid Hprocess Hforce Hgraceful Hhard.
  rewrite handle_stop, Hport, Hreq, (lookup_truthy_Some _ _ _ Hpid Hprocess).
  cbv zeta. rewrite Hforce, Hgraceful.
  destruct (wait e (Server.pid process) 3) as [ex|code]; [|by left].
  destruct (is_TimeoutExpired ex) eqn:Hex; [|right; by eexists].
  rewrite Hhard. by left.
Qed.

Lemma stopped_spec s pid :
  active_processes (stopped s pid) !! pid = None
  ∧ process_logs (stopped s pid) = process_logs s.
Proof. split; [apply lookup_delete_eq|done]. Qed.

(** C3, at the input where it fails.  A start whose worker 4242 dies at
    once leaves 4242 in the table with its exit status recorded.  A
    graceful stop of 4242 then sends [SIGTERM] to a pid that no longer
    exists; the [ProcessLookupError] is caught only by the
    [except Exception] clause, so the answer has status 500, nothing is
    waited for, no hard signal is sent, and 4242 is still in the table
    when the call returns. *)
Theorem C3_stop_of_exited_worker_keeps_it_tracked :
  let s := after (Start Examples.crashing_start) server_init in
  active_processes s !! 4242 = Some {| pid := 4242; returncode := Some 1 |}
  ∧ handle (Stop Examples.child_reaped Examples.stop_4242) s =
    (s,
     Some (respond_500 [("success", JBool false);
                        ("error", JStr "[Errno 3] No such process")]),
     [Os_kill 4242 SIGTERM;
      Print "Error stopping bot.py (PID 4242): [Errno 3] No such process"])
  ∧ is_Some
      (active_processes
         (after (Stop Examples.child_reaped Examples.stop_4242) s) !! 4242).
Proof. repeat split; try reflexivity. by eexists. Qed.

(** The same stop of a live worker that ignores [SIGTERM]. *)
Example stop_stubborn_worker :
  let s := after (Start Examples.first_start) server_init in
  handle (Stop Examples.stubborn Examples.stop_4242) s =
    (stopped s 4242, Some success_response,
     [Os_kill 4242 SIGTERM; Wait 4242 3; Os_kill 4242 SIGKILL;
      Print "Force killed bot process with PID: 4242"])
  ∧ active_processes (stopped s 4242) !! 4242 = None
  ∧ process_logs (stopped s 4242) !! 4242 = Some {| stdout := []; stderr := [] |}.
Proof. repeat split; reflexivity. Qed.

(** *** A start whose worker dies at once *)

Lemma not_found_is_not_an_error ex : Some (error_500 ex) ≠ Some not_found_response.
Proof. discriminate. Qed.

Lemma not_found_is_not_success : Some success_response ≠ Some not_found_response.
Proof. discriminate. Qed.

(** C10.  When a start fails because the worker it spawned had exited by
    the time of the poll, the answer has status 500, and after the call
    the worker's pid is still a key of the active-process table (its
    entry now records the exit status) and a key of the log table.  A
    later stop that names this pid is therefore never answered with
    "Process not found". *)
Theorem C10_failed_start_stays_tracked (e : env) (s : server) (p : positive)
    (code : Z) (e' : env) (data : stop_request) :
  Spawn (start_argv e) (SCRIPT_DIR e) ∈ trace_of (Start e) s →
  popen e (start_argv e) (SCRIPT_DIR e) = inr p →
  poll e (Z.pos p) = Some code →
  req_pid data = Some (Z.pos p) →
  let s' := after (Start e) s in
  (∃ r, response_of (Start e) s = Some r ∧ status r = 500)
  ∧ active_processes s' !! Z.pos p =
      Some {| pid := Z.pos p; returncode := Some code |}
  ∧ process_logs s' !! Z.pos p =
      Some {| stdout := stored "stdout" (read_lines e (Z.pos p));
              stderr := stored "stderr" (read_lines e (Z.pos p)) |}
  ∧ response_of (Stop e' data) s' ≠ Some not_found_response.
Proof.
  intros Hspawn Hpopen Hpoll Hreq s'.
  pose proof (handle_start_spawned e s p Hspawn Hpopen) as H. cbv zeta in H.
  rewrite Hpoll in H.
  assert (s' = exited e s (Z.pos p) code) as Hs'
    by (unfold s', after; by rewrite H).
  clearbody s'. subst s'.
  assert (active_processes (exited e s (Z.pos p) code) !! Z.pos p =
          Some {| pid := Z.pos p; returncode := Some code |}) as Hactive.
  { unfold exited. rewrite started_spec. simpl.
    by rewrite lookup_alter_eq, lookup_insert_eq. }
  split; [|split; [done|split]].
  - unfold response_of. rewrite H. by eexists.
  - unfold exited. rewrite started_spec. simpl. by rewrite lookup_insert_eq.
  - unfold response_of. rewrite handle_stop.
    destruct (Py.truthy_int (force_port data)).
    { destruct (force_port_step e' (force_port data)).1;
        [apply not_found_is_not_an_error|apply not_found_is_not_success]. }
    assert (Z.pos p ≠ 0) as Hpid by done.
    rewrite Hreq, (lookup_truthy_Some _ _ _ Hpid Hactive). cbv zeta.
    repeat match goal with
           | |- context [if ?b then _ else _] => destruct b
           | |- context [match ?r with inl _ => _ | inr _ => _ end] => destruct r
           end;
      first [apply not_found_is_not_an_error|apply not_found_is_not_success].
Qed.

Lemma C10_failed_start_stays_tracked_witness :
  let s' := after (Start Examples.crashing_start) server_init in
  (∃ r, response_of (Start Examples.crashing_start) server_init = Some r
        ∧ status r = 500)
  ∧ active_processes s' !! 4242 = Some {| pid := 4242; returncode := Some 1 |}
  ∧ process_logs s' !! 4242 =
      Some {| stdout := [];
              stderr := ["Traceback (most recent call last):";
                         "ModuleNotFoundError: No module named 'pipecat'"] |}
  ∧ response_of (Stop Examples.child_reaped Examples.stop_4242) s' ≠
      Some not_found_response.
Proof.
  apply (C10_failed_start_stays_tracked Examples.crashing_start server_init
           4242 1 Examples.child_reaped Examples.stop_4242).
  - vm_compute. repeat constructor.
  - reflexivity.
  - reflexivity.
  - reflexivity.
Defined.

(** *** How the active-process table changes *)

Lemma start_table e s :
  active_processes (after (Start e) s) = active_processes s
  ∨ ∃ p process,
      Spawn (start_argv e) (SCRIPT_DIR e) ∈ trace_of (Start e) s
      ∧ active_processes (after (Start e) s) =
        <[Z.pos p := process]> (active_processes s).
Proof.
  unfold after, trace_of. rewrite handle_start.
  destruct (port_step e).1 as [ex|u]; [by left|].
  destruct (path_exists e (creds_path e)); [|by left].
  destruct (path_exists e (env_path e)); [|by left].
  cbn [negb].
  destruct (popen e _ _) as [ex|p]; [by left|].
  right. exists p.
  assert (∀ l l', Spawn (start_argv e) (SCRIPT_DIR e) ∈
            (((port_step e).2 ++
              [Exists (creds_path e); Exists (env_path e);
               Print ("Starting bot.py from " +:+ SCRIPT_DIR e);
               Spawn (start_argv e) (SCRIPT_DIR e)]) ++ l) ++ l') as Hin.
  { intros l l'. rewrite !elem_of_app. left. left. right.
    rewrite !elem_of_cons. auto. }
  destruct (poll e (Z.pos p)) as [code|]; cbn [fst snd].
  - eexists. split; [apply Hin|]. unfold exited. rewrite started_spec.
    simpl. apply alter_insert_eq.
  - eexists. split; [apply Hin|]. rewrite started_spec. reflexivity.
Qed.

Lemma stop_table e data s :
  active_processes (after (Stop e data) s) = active_processes s
  ∨ ∃ pid, active_processes (after (Stop e data) s) =
           delete pid (active_processes s).
Proof.
  unfold after. rewrite handle_stop.
  repeat match goal with
         | |- context [if ?b then _ else _] => destruct b
         | |- context [match ?r with inl _ => _ | inr _ => _ end] => destruct r
         | |- context [match ?o with Some _ => _ | None => _ end] =>
             destruct o as [[? ?]|]
         | |- context [let _ := _ in _] => cbv zeta
         end;
    first [by left|right; by eexists].
Qed.

Lemma other_calls_table c s :
  match c with GetLogs _ | LogLine _ _ _ => True | _ => False end →
  active_processes (after c s) = active_processes s.
Proof.
  destruct c as [| |pid|log_type pid line]; try done; intros _.
  unfold after, handle, read_output; simpl.
  by destruct (process_logs s !! pid).
Qed.

Lemma size_after c s :
  (size (active_processes (after c s)) ≤
   size (active_processes s) + (if is_Start c then 1 else 0))%nat.
Proof.
  destruct c as [e|e data|pid|log_type pid line]; simpl.
  - destruct (start_table e s) as [->|(p & process & _ & ->)]; [lia|].
    rewrite map_size_insert. destruct (active_processes s !! Z.pos p); simpl; lia.
  - destruct (stop_table e data s) as [->|(pid & ->)]; [lia|].
    rewrite map_size_delete. destruct (active_processes s !! pid); simpl; lia.
  - rewrite other_calls_table by done. lia.
  - rewrite other_calls_table by done. lia.
Qed.

Lemma size_run_calls cs s :
  (size (active_processes (run_calls cs s)) ≤
   size (active_processes s) + length (List.filter is_Start cs))%nat.
Proof.
  revert s. induction cs as [|c cs IH]; intros s; [simpl; lia|].
  change (run_calls (c :: cs) s) with (run_calls cs (after c s)).
  specialize (IH (after c s)). pose proof (size_after c s) as Hc.
  simpl. destruct (is_Start c); simpl; lia.
Qed.

(** C1, as the program has it.  The active-process table is keyed by
    pid and can hold several workers at once.  A start never removes an
    entry: either it leaves the table as it was, or it has spawned a
    child and the table is the old one with the child's pid added (an old
    entry under that same pid, if any, replaced), whatever the port step
    signalled on the way.  So every pid tracked before a start is tracked
    after it, and after any sequence of calls the table holds at most as
    many workers as there were starts. *)
Theorem C1_start_adds_to_the_table (e : env) (s : server) (cs : list call) :
  (active_processes (after (Start e) s) = active_processes s
   ∨ ∃ p process,
       Spawn (start_argv e) (SCRIPT_DIR e) ∈ trace_of (Start e) s
       ∧ active_processes (after (Start e) s) =
         <[Z.pos p := process]> (active_processes s))
  ∧ dom (active_processes s) ⊆ dom (active_processes (after (Start e) s))
  ∧ (size (active_processes (run_calls cs server_init)) ≤
     length (List.filter is_Start cs))%nat.
Proof.
  split; [apply start_table|split].
  - destruct (start_table e s) as [->|(p & process & _ & ->)]; [done|].
    apply dom_insert_subseteq.
  - pose proof (size_run_calls cs server_init) as H. simpl in H.
    by rewrite map_size_empty in H.
Qed.

(** Two starts in a row, the second while the first worker runs.  With
    the port still free the second start signals nobody; with the port
    bound it kills the holder, worker 4242.  Either way it succeeds and
    the table then tracks both 4242 and 4243, each with no exit status
    recorded. *)
Lemma C1_two_workers_tracked :
  let s1 := after (Start Examples.first_start) server_init in
  let s2 := after (Start Examples.second_start) s1 in
  let s2' := after (Start Examples.second_start_port_bound) s1 in
  response_of (Start Examples.second_start) s1 =
    Some (respond_200 [("success", JBool true); ("pid", JInt 4243)])
  ∧ List.filter (λ x, match x with Os_kill _ _ | Run _ => true | _ => false end)
      (trace_of (Start Examples.second_start) s1) = []
  ∧ active_processes s2 !! 4242 = Some {| pid := 4242; returncode := None |}
  ∧ active_processes s2 !! 4243 = Some {| pid := 4243; returncode := None |}
  ∧ size (active_processes s2) = 2%nat
  ∧ response_of (Start Examples.second_start_port_bound) s1 =
      Some (respond_200 [("success", JBool true); ("pid", JInt 4243)])
  ∧ List.filter (λ x, match x with Os_kill _ _ | Run _ => true | _ => false end)
      (trace_of (Start Examples.second_start_port_bound) s1) =
      [Run ["lsof"; "-ti"; ":8765"]; Os_kill 4242 SIGKILL]
  ∧ active_processes s2' !! 4242 = Some {| pid := 4242; returncode := None |}
  ∧ active_processes s2' !! 4243 = Some {| pid := 4243; returncode := None |}
  ∧ size (active_processes s2') = 2%nat.
Proof. repeat split; vm_compute; reflexivity. Qed.

(** *** Reading the logs *)

Lemma foldr_max_spec (k : Z) (ks : list Z) :
  foldr Z.max k ks ∈ k :: ks ∧ ∀ x, x ∈ k :: ks → x ≤ foldr Z.max k ks.
Proof.
  induction ks as [|y ks [IHin IHmax]]; simpl.
  - split; [by left|]. intros x ->%list_elem_of_singleton. lia.
  - split.
    + destruct (Z.max_spec y (foldr Z.max k ks)) as [[_ ->]|[_ ->]].
      * apply elem_of_cons in IHin as [->|Hin]; [by left|].
        right. by right.
      * right. by left.
    + intros x [->|[->|Hx]%elem_of_cons]%elem_of_cons.
      * specialize (IHmax k ltac:(by left)). lia.
      * lia.
      * specialize (IHmax x ltac:(by right)). lia.
Qed.

(** [max_key] of a non-empty dictionary is one of its keys and no key is
    larger. *)
Lemma max_key_spec {V} (d : gmap Z V) :
  d ≠ ∅ →
  ∃ latest v, max_key d = Some latest ∧ d !! latest = Some v
              ∧ ∀ k, is_Some (d !! k) → k ≤ latest.
Proof.
  intros Hd. unfold max_key.
  destruct ((map_to_list d).*1) as [|k ks] eqn:Hkeys.
  { apply fmap_nil_inv, map_to_list_empty_iff in Hkeys. done. }
  destruct (foldr_max_spec k ks) as [Hin Hmax]. rewrite <- Hkeys in Hin, Hmax.
  apply list_elem_of_fmap in Hin as ([latest v] & Hlatest & Hin).
  simpl in Hlatest. apply elem_of_map_to_list in Hin.
  exists (foldr Z.max k ks), v. split; [done|]. split; [by rewrite Hlatest|].
  intros k' [v' Hk']. apply Hmax, list_elem_of_fmap.
  exists (k', v'). split; [done|]. by apply elem_of_map_to_list.
Qed.

Lemma max_key_empty {V} : max_key (∅ : gmap Z V) = None.
Proof. unfold max_key. by rewrite map_to_list_empty. Qed.

(** C9, as the program has it.  A request whose pid is absent or is 0
    counts as a request without an id.  With a non-zero id that has a log
    record, the answer is that worker's stdout and stderr lines as
    recorded, in order (empty lists if nothing was recorded).  Without an
    id, and with at least one log record, the answer is the record of the
    largest pid that has one.  With a non-zero id that has no log record,
    or without an id when there is no log record at all, the answer is
    the "No bot logs available" error. *)
Theorem C9_get_bot_logs (s : server) (pid : option Z) :
  (∀ id l, pid = Some id → id ≠ 0 → process_logs s !! id = Some l →
     _get_bot_logs pid s =
       respond_200 [("success", JBool true); ("pid", JInt id);
                    ("stdout", JList (stdout l)); ("stderr", JList (stderr l))])
  ∧ (pid = None ∨ pid = Some 0 → process_logs s ≠ ∅ →
     ∃ latest l,
       process_logs s !! latest = Some l
       ∧ (∀ k, is_Some (process_logs s !! k) → k ≤ latest)
       ∧ _get_bot_logs pid s =
           respond_200 [("success", JBool true); ("pid", JInt latest);
                        ("stdout", JList (stdout l)); ("stderr", JList (stderr l))])
  ∧ (∀ id, pid = Some id → id ≠ 0 → process_logs s !! id = None →
     _get_bot_logs pid s =
       respond_200 [("success", JBool false);
                    ("error", JStr "No bot logs available")])
  ∧ (pid = None ∨ pid = Some 0 → process_logs s = ∅ →
     _get_bot_logs pid s =
       respond_200 [("success", JBool false);
                    ("error", JStr "No bot logs available")]).
Proof.
  unfold _get_bot_logs. repeat split.
  - intros id l -> Hid Hl. by rewrite (lookup_truthy_Some _ _ _ Hid Hl).
  - intros Hpid Hlogs.
    destruct (max_key_spec (process_logs s) Hlogs) as (latest & l & Hmax & Hl & Hub).
    exists latest, l. split; [done|]. split; [done|].
    assert (lookup_truthy pid (process_logs s) = None) as ->
      by (by destruct Hpid as [->| ->]).
    assert (Py.truthy_int pid = false) as -> by (by destruct Hpid as [->| ->]).
    rewrite bool_decide_eq_false_2 by done. simpl.
    by rewrite Hmax, Hl.
  - intros id -> Hid Hnone. unfold lookup_truthy. simpl.
    apply Z.eqb_neq in Hid. rewrite Hid. simpl. by rewrite Hnone.
  - intros Hpid Hempty.
    assert (lookup_truthy pid (process_logs s) = None) as ->
      by (by destruct Hpid as [->| ->]).
    assert (Py.truthy_int pid = false) as -> by (by destruct Hpid as [->| ->]).
    by rewrite bool_decide_eq_true_2.
Qed.

Lemma C9_get_bot_logs_witness :
  let s := run_calls [Start Examples.first_start;
                      LogLine "stderr" 4242 "  INFO starting  ";
                      Start Examples.second_start] server_init in
  _get_bot_logs (Some 4242) s =
    respond_200 [("success", JBool true); ("pid", JInt 4242);
                 ("stdout", JList []); ("stderr", JList ["INFO starting"])]
  ∧ (∃ latest l,
       process_logs s !! latest = Some l
       ∧ (∀ k, is_Some (process_logs s !! k) → k ≤ latest)
       ∧ _get_bot_logs None s =
           respond_200 [("success", JBool true); ("pid", JInt latest);
                        ("stdout", JList (stdout l)); ("stderr", JList (stderr l))])
  ∧ _get_bot_logs (Some 7) s =
      respond_200 [("success", JBool false);
                   ("error", JStr "No bot logs available")]
  ∧ _get_bot_logs None server_init =
      respond_200 [("success", JBool false);
                   ("error", JStr "No bot logs available")].
Proof.
  intros s. split; [|split; [|split]].
  - apply (proj1 (C9_get_bot_logs s (Some 4242)) 4242
             {| stdout := []; stderr := ["INFO starting"] |});
      [reflexivity|lia|reflexivity].
  - apply (proj1 (proj2 (C9_get_bot_logs s None))); [by left|].
    intros Hempty. apply (f_equal (λ d, d !! 4242)) in Hempty.
    vm_compute in Hempty. discriminate.
  - apply (proj1 (proj2 (proj2 (C9_get_bot_logs s (Some 7)))) 7);
      [reflexivity|lia|reflexivity].
  - apply (proj2 (proj2 (proj2 (C9_get_bot_logs server_init None))));
      [by left|reflexivity].
Defined.

(** A request with pid 0, which is the pid of no worker, while worker
    4242 has a log record: the answer is not the error but the logs of
    4242. *)
Lemma C9_pid_zero_gets_latest_logs :
  let s := after (Start Examples.first_start) server_init in
  process_logs s !! 0 = None
  ∧ _get_bot_logs (Some 0) s =
      respond_200 [("success", JBool true); ("pid", JInt 4242);
                   ("stdout", JList []); ("stderr", JList [])]
  ∧ _get_bot_logs (Some 0) s ≠
      respond_200 [("success", JBool false);
                   ("error", JStr "No bot logs available")].
Proof. repeat split; try reflexivity. vm_compute. discriminate. Qed.

End ServerSpec.

(* ===================================================================== *)
(** ** Further properties of bot.py                                       *)
(* ===================================================================== *)
Module BotExtra.
Import Bot BotAux.

(** *** The translation stage on whole streams *)

Lemma run_stage_app self input1 input2 :
  run_stage self (input1 ++ input2) =
  run_stage self input1 ++ run_stage self input2.
Proof. unfold run_stage. by rewrite map_app, concat_app. Qed.

Lemma process_frame_no_transcription self frame direction :
  forallb (λ f, negb (is_TranscriptionFrame f))
    (process_frame self frame direction) = true.
Proof. by destruct frame. Qed.

Lemma process_frame_passes self frame direction :
  is_TranscriptionFrame frame = false →
  process_frame self frame direction = [frame].
Proof. by destruct frame. Qed.

(** The stage keeps no state between frames, so a stream handled in two
    pieces gives the two outputs one after the other.  No recognized-speech
    frame ever leaves the stage: each is replaced by its translation
    request.  Hence feeding the stage its own output changes nothing. *)
Theorem stage_consumes_transcriptions (self : TranslationProcessor)
    (input1 input2 : list (Frame * FrameDirection))
    (direction : FrameDirection) :
  run_stage self (input1 ++ input2) =
    run_stage self input1 ++ run_stage self input2
  ∧ forallb (λ f, negb (is_TranscriptionFrame f)) (run_stage self input1) = true
  ∧ run_stage self (map (λ f, (f, direction)) (run_stage self input1)) =
    run_stage self input1.
Proof.
  split; [apply run_stage_app|].
  assert (forallb (λ f, negb (is_TranscriptionFrame f))
            (run_stage self input1) = true) as Hnone.
  { induction input1 as [|[f d] input1 IH]; [done|].
    change (run_stage self ((f, d) :: input1))
      with (process_frame self f d ++ run_stage self input1).
    by rewrite forallb_app, process_frame_no_transcription, IH. }
  split; [done|].
  induction (run_stage self input1) as [|f out IH]; [done|].
  simpl in Hnone. apply andb_prop in Hnone as [Hf Hout].
  change (run_stage self (map (λ f, (f, direction)) (f :: out)))
    with (process_frame self f direction ++
          run_stage self (map (λ f, (f, direction)) out)).
  rewrite (process_frame_passes self f direction), (IH Hout);
    [done|by destruct f].
Qed.

(** *** The transcript handler over a whole session *)


(** *** Session timeouts over a whole session *)

Lemma count_app kind q1 q2 :
  count kind (q1 ++ q2) = (count kind q1 + count kind q2)%nat.
Proof. unfold count. by rewrite List.filter_app, length_app. Qed.

Lemma count_resumed {A} (due : list A) :
  count is_EndFrame (concat (map (λ _, [BotInterruptionFrame; EndFrame]) due)) =
    length due
  ∧ count is_BotInterruptionFrame
      (concat (map (λ _, [BotInterruptionFrame; EndFrame]) due)) = length due.
Proof.
  induction due as [|d due [IH1 IH2]]; [done|].
  split; simpl; change (?x :: ?y :: ?l) with ([x; y] ++ l);
    rewrite count_app; [rewrite IH1|rewrite IH2]; done.
Qed.

Lemma advance_spec dt l :
  advance dt l =
  {| now := now l + dt;
     queued := queued l ++
               concat (map (λ _, [BotInterruptionFrame; EndFrame])
                         (filter (λ d, d ≤ now l + dt) (sleeping l)));
     sleeping := filter (λ d, ¬ d ≤ now l + dt) (sleeping l) |}.
Proof. unfold advance. by rewrite BotSpec.resume_all. Qed.

Lemma run_cons ev es l : run (ev :: es) l = run es (step l ev).
Proof. reflexivity. Qed.

Lemma due_or_pending (t : Z) (ds : list Z) :
  Nat.add (length (filter (λ d, d ≤ t) ds))
          (length (filter (λ d, ¬ d ≤ t) ds)) = length ds.
Proof.
  rewrite <- length_app. apply Permutation_length, filter_app_complement.
Qed.

Lemma timers_conserved_step ev l :
  Nat.add (count is_EndFrame (queued (step l ev))) (length (sleeping (step l ev))) =
    Nat.add (Nat.add (count is_EndFrame (queued l)) (length (sleeping l)))
            (if is_IdleTimeout ev then 1%nat else 0%nat)
  ∧ Nat.add (count is_BotInterruptionFrame (queued (step l ev)))
            (count is_EndFrame (queued l)) =
    Nat.add (Nat.add (count is_BotInterruptionFrame (queued l))
                     (if is_IdleTimeout ev then 1%nat else 0%nat))
            (count is_EndFrame (queued (step l ev))).
Proof.
  destruct ev as [client|dt]; simpl step.
  - rewrite BotSpec.on_session_timeout_spec. simpl.
    rewrite !count_app, !length_app. simpl.
    change (count is_EndFrame [BotInterruptionFrame]) with 0%nat.
    change (count is_BotInterruptionFrame [BotInterruptionFrame]) with 1%nat.
    lia.
  - rewrite advance_spec. simpl. rewrite !count_app.
    destruct (count_resumed (filter (λ d, d ≤ now l + dt) (sleeping l)))
      as [-> ->].
    pose proof (due_or_pending (now l + dt) (sleeping l)). lia.
Qed.

Lemma timers_conserved_from es l :
  Nat.add (count is_EndFrame (queued (run es l))) (length (sleeping (run es l))) =
    Nat.add (Nat.add (count is_EndFrame (queued l)) (length (sleeping l)))
            (length (List.filter is_IdleTimeout es))
  ∧ Nat.add (count is_BotInterruptionFrame (queued (run es l)))
            (count is_EndFrame (queued l)) =
    Nat.add (Nat.add (count is_BotInterruptionFrame (queued l))
                     (length (List.filter is_IdleTimeout es)))
            (count is_EndFrame (queued (run es l))).
Proof.
  revert l. induction es as [|ev es IH]; intros l; [simpl; lia|].
  rewrite run_cons. destruct (IH (step l ev)) as [IH1 IH2].
  destruct (timers_conserved_step ev l) as [H1 H2].
  simpl List.filter. destruct (is_IdleTimeout ev); simpl length; lia.
Qed.

(** Every idle-timeout notification ends in exactly one end signal: at
    any moment of a session the end signals injected so far and the timers
    still pending add up to the notifications received; and the
    interruption signals injected are one per notification plus one per
    end signal. *)
Theorem timers_conserved (es : list event) :
  let l := run es loop_init in
  (count is_EndFrame (queued l) + length (sleeping l))%nat =
    length (List.filter is_IdleTimeout es)
  ∧ count is_BotInterruptionFrame (queued l) =
    (length (List.filter is_IdleTimeout es) + count is_EndFrame (queued l))%nat.
Proof.
  intros l. subst l.
  destruct (timers_conserved_from es loop_init) as [H1 H2].
  simpl in *. change (count _ []) with 0%nat in *. lia.
Qed.

Lemma interruption_before_end_app q1 q2 :
  interruption_before_end q1 → interruption_before_end q2 →
  interruption_before_end (q1 ++ q2).
Proof.
  intros H1 H2 i Hi.
  destruct (decide (i < length q1)%nat) as [Hlt|Hge].
  - rewrite lookup_app_l in Hi by done.
    destruct (H1 i Hi) as (j & -> & Hj). exists j. split; [done|].
    rewrite lookup_app_l by lia. done.
  - rewrite lookup_app_r in Hi by lia.
    destruct (H2 _ Hi) as (j & Hij & Hj). exists (length q1 + j)%nat.
    split; [lia|]. rewrite lookup_app_r by lia.
    by replace (length q1 + j - length q1)%nat with j by lia.
Qed.

Lemma interruption_before_end_resumed {A} (due : list A) :
  interruption_before_end
    (concat (map (λ _, [BotInterruptionFrame; EndFrame]) due)).
Proof.
  induction due as [|d due IH]; [by intros i|].
  simpl. change (?x :: ?y :: ?l) with ([x; y] ++ l).
  apply interruption_before_end_app; [|done].
  intros [|[|i]] Hi; try done. by exists 0%nat.
Qed.

Lemma end_follows_interruption_from es l :
  interruption_before_end (queued l) →
  interruption_before_end (queued (run es l)).
Proof.
  revert l. induction es as [|ev es IH]; intros l Hl; [done|].
  rewrite run_cons. apply IH. destruct ev as [client|dt]; simpl step.
  - rewrite BotSpec.on_session_timeout_spec. simpl.
    apply interruption_before_end_app; [done|]. by intros [|i] Hi.
  - rewrite advance_spec. simpl.
    apply interruption_before_end_app; [done|].
    apply interruption_before_end_resumed.
Qed.

(** In the queue of a session every end signal stands directly behind an
    interruption signal; in particular the queue never starts with an end
    signal. *)
Theorem end_follows_interruption (es : list event) (i : nat) :
  queued (run es loop_init) !! i = Some EndFrame →
  ∃ j : nat, i = S j ∧ queued (run es loop_init) !! j = Some BotInterruptionFrame.
Proof.
  apply (end_follows_interruption_from es loop_init). by intros k.
Qed.

Lemma end_follows_interruption_witness :
  ∃ j : nat,
    3%nat = S j
    ∧ queued (run [IdleTimeout "127.0.0.1"; Elapse 1; IdleTimeout "127.0.0.1";
                   Elapse 2] loop_init) !! j = Some BotInterruptionFrame.
Proof.
  exact (end_follows_interruption
           [IdleTimeout "127.0.0.1"; Elapse 1; IdleTimeout "127.0.0.1"; Elapse 2]
           3 eq_refl).
Defined.

(** *** The grace period *)

Lemma filter_none (P : Z → Prop) `{∀ d, Decision (P d)} (ds : list Z) :
  (∀ d, d ∈ ds → ¬ P d) → filter P ds = [].
Proof.
  intros Hnone. destruct (filter P ds) as [|d rest] eqn:Hf; [done|].
  assert (d ∈ filter P ds) as [Hd Hin]%list_elem_of_filter
    by (rewrite Hf; by left).
  by destruct (Hnone d Hin).
Qed.

Lemma on_time_step ev l : 0 ≤ elapsed ev → on_time l → on_time (step l ev).
Proof.
  intros Hev (Hnow & Hsleep & Hend). rewrite Forall_forall in Hsleep.
  destruct ev as [client|dt]; simpl in Hev; simpl step.
  - rewrite BotSpec.on_session_timeout_spec.
    split; [done|]. split; simpl.
    + apply Forall_app. split; [by apply Forall_forall|].
      apply Forall_singleton. lia.
    + intros Hlt. rewrite count_app, (Hend Hlt). done.
  - rewrite advance_spec. split; [simpl; lia|]. split; simpl.
    + apply Forall_forall. intros d [Hd Hin]%list_elem_of_filter.
      specialize (Hsleep d Hin). lia.
    + intros Hlt. rewrite count_app, Hend by lia.
      rewrite filter_none; [done|].
      intros d Hin. specialize (Hsleep d Hin). lia.
Qed.

Lemma on_time_run es l :
  Forall (λ ev, 0 ≤ elapsed ev) es → on_time l → on_time (run es l).
Proof.
  revert l. induction es as [|ev es IH]; intros l Hes Hl; [done|].
  apply Forall_cons in Hes as [Hev Hes].
  rewrite run_cons. apply IH; [done|]. by apply on_time_step.
Qed.

(** When time only moves forward, every pending timer of a session is
    due within the next three seconds and none is overdue; no end signal
    is injected before the session is three seconds old; and once three
    seconds pass without interruption of the clock, no timer is left. *)
Theorem grace_period_is_three_seconds (es : list event) :
  Forall (λ ev, 0 ≤ elapsed ev) es →
  let l := run es loop_init in
  Forall (λ d, now l < d ≤ now l + 3) (sleeping l)
  ∧ (now l < 3 → count is_EndFrame (queued l) = 0%nat)
  ∧ ∀ dt, 3 ≤ dt → sleeping (step l (Elapse dt)) = [].
Proof.
  intros Hes l.
  assert (on_time l) as (Hnow & Hsleep & Hend).
  { apply on_time_run; [done|]. repeat split; simpl; [done|constructor]. }
  split; [|split; [done|]].
  - eapply Forall_impl; [exact Hsleep|]. intros d. simpl. lia.
  - intros dt Hdt. simpl. rewrite advance_spec. simpl.
    apply filter_none. intros d Hin.
    rewrite Forall_forall in Hsleep. specialize (Hsleep d Hin). lia.
Qed.

Lemma grace_period_is_three_seconds_witness :
  let l := run [IdleTimeout "127.0.0.1"; Elapse 1; IdleTimeout "127.0.0.1";
                Elapse 2] loop_init in
  Forall (λ d, now l < d ≤ now l + 3) (sleeping l)
  ∧ (now l < 3 → count is_EndFrame (queued l) = 0%nat)
  ∧ ∀ dt, 3 ≤ dt → sleeping (step l (Elapse dt)) = [].
Proof.
  apply (grace_period_is_three_seconds
           [IdleTimeout "127.0.0.1"; Elapse 1; IdleTimeout "127.0.0.1"; Elapse 2]).
  repeat constructor; simpl; lia.
Defined.

End BotExtra.

(* ===================================================================== *)
(** ** Further properties of server.py                                    *)
(* ===================================================================== *)
Module ServerExtra.
Import Server ServerAux.

(** *** _stop_bot *)

Lemma lookup_truthy_None {V} (d : gmap Z V) pid :
  pid = None ∨ pid = Some 0 ∨ (∃ k, pid = Some k ∧ d !! k = None) →
  lookup_truthy pid d = None.
Proof.
  intros [->|[->|(k & -> & Hk)]]; [done|done|].
  unfold lookup_truthy. destruct (Py.truthy_int (Some k)); [|done].
  simpl. by rewrite Hk.
Qed.

Lemma lookup_truthy_inv {V} (d : gmap Z V) pid k v :
  lookup_truthy pid d = Some (k, v) → pid = Some k ∧ k ≠ 0 ∧ d !! k = Some v.
Proof.
  unfold lookup_truthy. destruct pid as [n|]; simpl; [|done].
  destruct (Z.eqb_spec n 0) as [->|Hn]; simpl; [done|].
  destruct (d !! n) as [v'|] eqn:Hd; simpl; [|done].
  intros [= <- <-]. done.
Qed.

(** A stop without [force_port] whose pid is missing, is 0 or is not in
    the active-process table answers "Process not found" (status 200),
    changes neither table and makes no call to the outside: no process is
    signalled. *)
Theorem stop_unknown_pid (e : env) (data : stop_request) (s : server) :
  Py.truthy_int (force_port data) = false →
  names_no_worker data s →
  handle (Stop e data) s =
    (s,
     Some (respond_200 [("success", JBool false);
                        ("error", JStr "Process not found")]),
     []).
Proof.
  intros Hport Hpid. rewrite ServerSpec.handle_stop, Hport.
  by rewrite (lookup_truthy_None _ _ Hpid).
Qed.

Lemma stop_unknown_pid_witness :
  handle (Stop Examples.first_start
            {| req_pid := Some 4243; force := true; force_port := Some 0 |})
    (after (Start Examples.first_start) server_init) =
    (after (Start Examples.first_start) server_init,
     Some (respond_200 [("success", JBool false);
                        ("error", JStr "Process not found")]),
     []).
Proof.
  apply stop_unknown_pid; [reflexivity|].
  right. right. exists 4243. split; reflexivity.
Defined.

Lemma force_port_step_effects e port :
  forallb frees_port (force_port_step e port).2 = true.
Proof.
  unfold force_port_step.
  destruct (ServerSpec.tracing_kill_port_holders e (Py.str_of_opt_int port)
              (λ port_pid, "Force killed process " +:+ port_pid +:+
                           " using port " +:+ Py.str_of_opt_int port))
    as (r & tr & Htr & H).
  rewrite H. done.
Qed.

(** A stop with [force_port] set (and not 0) never looks at the
    active-process table: whatever pid and [force] the request carries,
    both tables are left as they were, nothing is done through a worker's
    [Popen] object, and the answer is success or, when a command or a
    signal raised, the error with status 500; it is never "Process not
    found". *)
Theorem stop_force_port_bypasses_table (e : env) (data : stop_request)
    (s : server) :
  Py.truthy_int (force_port data) = true →
  after (Stop e data) s = s
  ∧ existsb uses_handle (trace_of (Stop e data) s) = false
  ∧ (response_of (Stop e data) s = Some (respond_200 [("success", JBool true)])
     ∨ ∃ ex, response_of (Stop e data) s =
             Some (respond_500 [("success", JBool false);
                                ("error", JStr (str_exn ex))])).
Proof.
  intros Hport. unfold after, trace_of, response_of.
  rewrite ServerSpec.handle_stop, Hport.
  assert (existsb uses_handle (force_port_step e (force_port data)).2 = false)
    as Hnone.
  { pose proof (force_port_step_effects e (force_port data)) as Hall.
    induction (force_port_step e (force_port data)).2 as [|x l IH]; [done|].
    simpl in *. apply andb_prop in Hall as [Hx Hl]. rewrite (IH Hl).
    by destruct x. }
  destruct (force_port_step e (force_port data)).1 as [ex|u]; cbn [fst snd].
  - split; [done|]. split; [|right; by exists ex].
    rewrite existsb_app, Hnone. done.
  - split; [done|]. split; [done|by left].
Qed.

Lemma stop_force_port_bypasses_table_witness :
  let s := after (Start Examples.first_start) server_init in
  let data := {| req_pid := Some 4242; force := true; force_port := Some 8765 |} in
  after (Stop Examples.first_start data) s = s
  ∧ existsb uses_handle (trace_of (Stop Examples.first_start data) s) = false
  ∧ (response_of (Stop Examples.first_start data) s =
       Some (respond_200 [("success", JBool true)])
     ∨ ∃ ex, response_of (Stop Examples.first_start data) s =
             Some (respond_500 [("success", JBool false);
                                ("error", JStr (str_exn ex))])).
Proof.
  intros s data. apply stop_force_port_bypasses_table. reflexivity.
Defined.

(** Every stop ends in one of two ways: the tables are as before and the
    answer is "Process not found", the success of the [force_port] branch
    or an error; or the named pid, which was tracked, has been deleted and
    the answer is success. *)
Lemma stop_outcome e data s :
  (after (Stop e data) s = s
   ∧ (response_of (Stop e data) s = Some not_found_response
      ∨ (Py.truthy_int (force_port data) = true
         ∧ response_of (Stop e data) s = Some success_response)
      ∨ ∃ ex, response_of (Stop e data) s = Some (error_500 ex)))
  ∨ (∃ pid process,
       Py.truthy_int (force_port data) = false
       ∧ req_pid data = Some pid ∧ pid ≠ 0
       ∧ active_processes s !! pid = Some process
       ∧ after (Stop e data) s = stopped s pid
       ∧ response_of (Stop e data) s = Some success_response).
Proof.
  unfold after, response_of. rewrite ServerSpec.handle_stop.
  destruct (Py.truthy_int (force_port data)) eqn:Hport.
  { left. destruct (force_port_step e (force_port data)).1 as [ex|u];
      (split; [done|]); [right; right; by exists ex|right; left; done]. }
  destruct (lookup_truthy (req_pid data) (active_processes s))
    as [[pid process]|] eqn:Hlookup; [|left; split; [done|by left]].
  apply lookup_truthy_inv in Hlookup as (Hreq & Hpid & Hprocess).
  cbv zeta.
  repeat match goal with
         | |- context [if ?b then _ else _] => destruct b
         | |- context [match ?r with inl _ => _ | inr _ => _ end] =>
             let ex := fresh "ex" in destruct r as [ex|?]
         end;
    first [ right; exists pid, process; done
          | left; split; [done|]; right; right; by eexists ].
Qed.

Lemma stop_keeps_logs e data s :
  process_logs (after (Stop e data) s) = process_logs s.
Proof.
  by destruct (stop_outcome e data s)
    as [[-> _]|(pid & process & _ & _ & _ & _ & -> & _)].
Qed.

(** No stop touches the log table, and no stop touches the entry of a
    worker other than the one its request names. *)
Theorem stop_keeps_logs_and_other_workers (e : env) (data : stop_request)
    (s : server) (k : Z) :
  process_logs (after (Stop e data) s) = process_logs s
  ∧ (req_pid data ≠ Some k →
     active_processes (after (Stop e data) s) !! k = active_processes s !! k).
Proof.
  split; [apply stop_keeps_logs|].
  destruct (stop_outcome e data s)
    as [[-> _]|(pid & process & _ & Hreq & _ & _ & -> & _)]; [done|].
  intros Hk. simpl. apply lookup_delete_ne. congruence.
Qed.

Lemma stop_keeps_logs_and_other_workers_witness :
  let s := run_calls [Start Examples.first_start; Start Examples.second_start]
             server_init in
  process_logs (after (Stop Examples.stubborn Examples.stop_4242) s) =
    process_logs s
  ∧ active_processes (after (Stop Examples.stubborn Examples.stop_4242) s) !! 4243
    = active_processes s !! 4243.
Proof.
  intros s.
  destruct (stop_keeps_logs_and_other_workers Examples.stubborn
              Examples.stop_4242 s 4243) as [Hlogs Hother].
  split; [exact Hlogs|]. apply Hother. discriminate.
Defined.

(** A stop tells the truth about the table.  If it answers with status
    500, nothing was removed, even when a signal had already been sent;
    if it answers success without [force_port], the pid it names was
    tracked and is tracked no more. *)
Theorem stop_answer_matches_table (e : env) (data : stop_request) (s : server) :
  (∀ r, response_of (Stop e data) s = Some r → status r = 500 →
        after (Stop e data) s = s)
  ∧ (response_of (Stop e data) s = Some (respond_200 [("success", JBool true)]) →
     Py.truthy_int (force_port data) = false →
     ∃ pid, req_pid data = Some pid
            ∧ is_Some (active_processes s !! pid)
            ∧ active_processes (after (Stop e data) s) =
              delete pid (active_processes s)).
Proof.
  destruct (stop_outcome e data s)
    as [[Hs Hr]|(pid & process & Hport & Hreq & _ & Hprocess & Hs & Hr)].
  - split; [done|]. intros Hok Hport.
    destruct Hr as [Hr|[[Hport' _]|[ex Hr]]]; [|congruence|];
      rewrite Hr in Hok; discriminate.
  - split.
    + intros r Hr' Hstatus. rewrite Hr in Hr'. injection Hr' as <-. done.
    + intros _ _. exists pid. rewrite Hs. by rewrite Hprocess.
Qed.

Lemma stop_answer_matches_table_witness :
  let s := after (Start Examples.crashing_start) server_init in
  after (Stop Examples.child_reaped Examples.stop_4242) s = s
  ∧ ∃ pid, Some 4242 = Some pid
           ∧ is_Some (active_processes
                        (after (Start Examples.first_start) server_init) !! pid)
           ∧ active_processes
               (after (Stop Examples.stubborn Examples.stop_4242)
                  (after (Start Examples.first_start) server_init)) =
             delete pid (active_processes
                           (after (Start Examples.first_start) server_init)).
Proof.
  intros s. split.
  - eapply (proj1 (stop_answer_matches_table Examples.child_reaped
                     Examples.stop_4242 s)); reflexivity.
  - apply (proj2 (stop_answer_matches_table Examples.stubborn
                    Examples.stop_4242
                    (after (Start Examples.first_start) server_init)));
      reflexivity.
Defined.

(** A stop that succeeded by pid cannot be repeated: the same request
    sent again, to whatever host, is answered "Process not found" and
    signals nobody. *)
Theorem stop_twice (e e' : env) (data : stop_request) (s : server) :
  Py.truthy_int (force_port data) = false →
  response_of (Stop e data) s = Some (respond_200 [("success", JBool true)]) →
  handle (Stop e' data) (after (Stop e data) s) =
    (after (Stop e data) s,
     Some (respond_200 [("success", JBool false);
                        ("error", JStr "Process not found")]),
     []).
Proof.
  intros Hport Hok.
  assert (names_no_worker data (after (Stop e data) s)) as Hgone.
  { destruct (stop_outcome e data s)
      as [[_ Hr]|(pid & process & _ & Hreq & _ & _ & -> & _)].
    - destruct Hr as [Hr|[[Hport' _]|[ex Hr]]]; [|congruence|];
        rewrite Hr in Hok; discriminate.
    - right. right. exists pid. split; [done|]. apply lookup_delete_eq. }
  rewrite ServerSpec.handle_stop, Hport.
  by rewrite (lookup_truthy_None _ _ Hgone).
Qed.

Lemma stop_twice_witness :
  let s := after (Start Examples.first_start) server_init in
  handle (Stop Examples.child_reaped Examples.stop_4242)
    (after (Stop Examples.stubborn Examples.stop_4242) s) =
    (after (Stop Examples.stubborn Examples.stop_4242) s,
     Some (respond_200 [("success", JBool false);
                        ("error", JStr "Process not found")]),
     []).
Proof.
  intros s. apply stop_twice; reflexivity.
Defined.

(** A forced stop of a tracked worker sends the hard signal at once:
    there is no graceful signal and no wait.  If the signal is delivered
    the pid leaves the table and the answer is success; if it raises, the
    answer is the error with status 500 and the pid stays. *)
Theorem stop_force_kills_at_once (e : env) (data : stop_request) (s : server)
    (pid : Z) (process : Popen) :
  Py.truthy_int (force_port data) = false →
  req_pid data = Some pid → pid ≠ 0 →
  active_processes s !! pid = Some process →
  force data = true →
  handle (Stop e data) s =
    match (hard e process pid).2 with
    | inr _ =>
        (stopped s pid, Some (respond_200 [("success", JBool true)]),
         [(hard e process pid).1;
          Print ("Force killed bot process with PID: " +:+ Py.str_of_int pid)])
    | inl ex =>
        (s, Some (respond_500 [("success", JBool false);
                               ("error", JStr (str_exn ex))]),
         [(hard e process pid).1; stop_error_line data ex])
    end.
Proof.
  intros Hport Hreq Hpid Hprocess Hforce.
  rewrite ServerSpec.handle_stop, Hport, Hreq,
    (ServerSpec.lookup_truthy_Some _ _ _ Hpid Hprocess).
  cbv zeta. rewrite Hforce. by destruct (hard e process pid).2.
Qed.

Lemma stop_force_kills_at_once_witness :
  let s := after (Start Examples.first_start) server_init in
  handle (Stop Examples.first_start
            {| req_pid := Some 4242; force := true; force_port := None |}) s =
    (stopped s 4242, Some (respond_200 [("success", JBool true)]),
     [Os_kill 4242 SIGKILL; Print "Force killed bot process with PID: 4242"]).
Proof.
  intros s.
  exact (stop_force_kills_at_once Examples.first_start
           {| req_pid := Some 4242; force := true; force_port := None |} s
           4242 {| pid := 4242; returncode := None |}
           eq_refl eq_refl ltac:(discriminate) eq_refl eq_refl).
Defined.

(** *** _start_bot *)

(** A start answers [success: true] only for a child it spawned and
    found alive at the poll: the answer then carries that child's pid, the
    pid is tracked with no exit status recorded, and its log record is
    new: it holds what the child's reader threads have stored during the
    call and nothing older. *)
Theorem start_success_means_alive (e : env) (s : server) (r : response) :
  response_of (Start e) s = Some r →
  body r !! 0%nat = Some ("success", JBool true) →
  ∃ p : positive,
    Spawn (start_argv e) (SCRIPT_DIR e) ∈ trace_of (Start e) s
    ∧ popen e (start_argv e) (SCRIPT_DIR e) = inr p
    ∧ poll e (Z.pos p) = None
    ∧ r = respond_200 [("success", JBool true); ("pid", JInt (Z.pos p))]
    ∧ active_processes (after (Start e) s) !! Z.pos p =
      Some {| pid := Z.pos p; returncode := None |}
    ∧ process_logs (after (Start e) s) !! Z.pos p =
      Some {| stdout := stored "stdout" (read_lines e (Z.pos p));
              stderr := stored "stderr" (read_lines e (Z.pos p)) |}.
Proof.
  unfold response_of, trace_of, after. rewrite ServerSpec.handle_start.
  destruct (port_step e).1 as [ex|u]; cbn [fst snd];
    [by intros [= <-]|].
  destruct (path_exists e (creds_path e)); cbn [negb fst snd];
    [|by intros [= <-]].
  destruct (path_exists e (env_path e)); cbn [negb fst snd];
    [|by intros [= <-]].
  destruct (popen e _ _) as [ex|p] eqn:Hpopen; cbn [fst snd];
    [by intros [= <-]|].
  destruct (poll e (Z.pos p)) as [code|] eqn:Hpoll; cbn [fst snd];
    [by intros [= <-]|].
  intros [= <-] _. exists p.
  split; [|split; [done|split; [done|split; [done|split]]]].
  - rewrite !elem_of_app. left. left. right. rewrite !elem_of_cons. auto.
  - rewrite ServerSpec.started_spec. simpl. apply lookup_insert_eq.
  - rewrite ServerSpec.started_spec. simpl. apply lookup_insert_eq.
Qed.

Lemma start_success_means_alive_witness :
  ∃ p : positive,
    Spawn (start_argv MoreExamples.chatty_start)
      (SCRIPT_DIR MoreExamples.chatty_start)
      ∈ trace_of (Start MoreExamples.chatty_start) server_init
    ∧ popen MoreExamples.chatty_start (start_argv MoreExamples.chatty_start)
        (SCRIPT_DIR MoreExamples.chatty_start) = inr p
    ∧ poll MoreExamples.chatty_start (Z.pos p) = None
    ∧ respond_200 [("success", JBool true); ("pid", JInt 4242)] =
      respond_200 [("success", JBool true); ("pid", JInt (Z.pos p))]
    ∧ active_processes (after (Start MoreExamples.chatty_start) server_init)
        !! Z.pos p =
      Some {| pid := Z.pos p; returncode := None |}
    ∧ process_logs (after (Start MoreExamples.chatty_start) server_init)
        !! Z.pos p =
      Some {| stdout := []; stderr := ["INFO starting"] |}.
Proof.
  exact (start_success_means_alive MoreExamples.chatty_start server_init
           (respond_200 [("success", JBool true); ("pid", JInt 4242)])
           eq_refl eq_refl).
Defined.

(** When [Popen] itself raises, the start answers with that error and
    status 500; both tables are as before, no reader thread is started and
    the child is never polled. *)
Theorem start_popen_fails (e : env) (s : server) (ex : exn) :
  Spawn (start_argv e) (SCRIPT_DIR e) ∈ trace_of (Start e) s →
  popen e (start_argv e) (SCRIPT_DIR e) = inl ex →
  handle (Start e) s =
    (s,
     Some (respond_500 [("success", JBool false); ("error", JStr (str_exn ex))]),
     (port_step e).2 ++
     [Exists (creds_path e); Exists (env_path e);
      Print ("Starting bot.py from " +:+ SCRIPT_DIR e);
      Spawn (start_argv e) (SCRIPT_DIR e);
      Print ("Error starting bot.py: " +:+ str_exn ex)]).
Proof.
  intros ([u Hport] & Hcreds & Henv)%ServerSpec.spawn_inv Hpopen.
  rewrite ServerSpec.handle_start, Hport, Hcreds, Henv, Hpopen. simpl.
  by rewrite <- app_assoc.
Qed.

(** What a start does to the log table: nothing, or, having spawned a
    child, it puts a new empty record under the child's pid, to which the
    child's reader threads add what they read during the call.  A record
    already there under that pid is replaced; no other record is
    touched. *)
Theorem start_resets_the_log_record (e : env) (s : server) :
  process_logs (after (Start e) s) = process_logs s
  ∨ ∃ p : positive,
      Spawn (start_argv e) (SCRIPT_DIR e) ∈ trace_of (Start e) s
      ∧ popen e (start_argv e) (SCRIPT_DIR e) = inr p
      ∧ process_logs (after (Start e) s) =
        <[Z.pos p := {| stdout := stored "stdout" (read_lines e (Z.pos p));
                        stderr := stored "stderr" (read_lines e (Z.pos p)) |}]>
          (process_logs s).
Proof.
  unfold after, trace_of. rewrite ServerSpec.handle_start.
  destruct (port_step e).1 as [ex|u]; [by left|].
  destruct (path_exists e (creds_path e)); [|by left].
  destruct (path_exists e (env_path e)); [|by left].
  cbn [negb].
  destruct (popen e _ _) as [ex|p]; [by left|].
  right. exists p.
  assert (∀ l l', Spawn (start_argv e) (SCRIPT_DIR e) ∈
            (((port_step e).2 ++
              [Exists (creds_path e); Exists (env_path e);
               Print ("Starting bot.py from " +:+ SCRIPT_DIR e);
               Spawn (start_argv e) (SCRIPT_DIR e)]) ++ l) ++ l') as Hin.
  { intros l l'. rewrite !elem_of_app. left. left. right.
    rewrite !elem_of_cons. auto. }
  destruct (poll e (Z.pos p)); cbn [fst snd];
    (split; [apply Hin|]); (split; [done|]);
    unfold exited; by rewrite ServerSpec.started_spec.
Qed.

Lemma start_popen_fails_witness :
  handle (Start MoreExamples.start_cannot_spawn) server_init =
    (server_init,
     Some (respond_500
             [("success", JBool false);
              ("error", JStr "[Errno 13] Permission denied: '/usr/bin/python3'")]),
     [Connect_ex "localhost" 8765;
      Exists "/srv/translate/creds.json"; Exists "/srv/translate/.env";
      Print "Starting bot.py from /srv/translate";
      Spawn ["/usr/bin/python3"; "/srv/translate/bot.py"] "/srv/translate";
      Print "Error starting bot.py: [Errno 13] Permission denied: '/usr/bin/python3'"]).
Proof.
  apply (start_popen_fails MoreExamples.start_cannot_spawn server_init
           (OtherError "[Errno 13] Permission denied: '/usr/bin/python3'")).
  - vm_compute. repeat constructor.
  - reflexivity.
Defined.

(** When the probe of port 8765 does not connect, a start runs no
    command and signals no process: its first call is the probe and its
    second the look for [creds.json]. *)
Theorem start_port_free_signals_nobody (e : env) (s : server) :
  connect_ex e "localhost" 8765 ≠ 0 →
  existsb acts_on_processes (trace_of (Start e) s) = false
  ∧ ∃ rest, trace_of (Start e) s =
            Connect_ex "localhost" 8765 :: Exists (creds_path e) :: rest.
Proof.
  intros Hfree. unfold trace_of.
  rewrite ServerSpec.handle_start, (ServerSpec.port_step_free e Hfree).
  cbn [fst snd].
  destruct (path_exists e (creds_path e)); cbn [negb snd];
    [|split; [done|by eexists]].
  destruct (path_exists e (env_path e)); cbn [negb snd];
    [|split; [done|by eexists]].
  destruct (popen e _ _) as [ex|p]; cbn [snd]; [split; [done|by eexists]|].
  destruct (poll e (Z.pos p)); cbn [snd]; (split; [done|by eexists]).
Qed.

Lemma start_port_free_signals_nobody_witness :
  existsb acts_on_processes (trace_of (Start Examples.first_start) server_init)
    = false
  ∧ ∃ rest, trace_of (Start Examples.first_start) server_init =
            Connect_ex "localhost" 8765
            :: Exists (creds_path Examples.first_start) :: rest.
Proof.
  apply start_port_free_signals_nobody. discriminate.
Defined.

(** *** read_output *)

Lemma run_calls_cons c cs s : run_calls (c :: cs) s = run_calls cs (after c s).
Proof. reflexivity. Qed.

Lemma run_calls_app cs1 cs2 s :
  run_calls (cs1 ++ cs2) s = run_calls cs2 (run_calls cs1 s).
Proof. unfold run_calls. apply fold_left_app. Qed.

(** Lines that arrive between two requests go through the same
    [read_output] as the lines read while a start sleeps. *)
Lemma run_log_lines pid arrived s :
  run_calls (log_lines pid arrived) s = read_all pid arrived s.
Proof.
  revert s. induction arrived as [|[log_type line] arrived IH]; intros s;
    [done|].
  change (log_lines pid ((log_type, line) :: arrived))
    with (LogLine log_type pid line :: log_lines pid arrived).
  rewrite run_calls_cons. apply IH.
Qed.

Lemma read_lines_spec pid arrived s :
  let s' := run_calls (log_lines pid arrived) s in
  active_processes s' = active_processes s
  ∧ process_logs s' !! pid =
    (λ l, {| stdout := stdout l ++ stored "stdout" arrived;
             stderr := stderr l ++ stored "stderr" arrived |})
      <$> process_logs s !! pid
  ∧ delete pid (process_logs s') = delete pid (process_logs s).
Proof. rewrite run_log_lines. apply ServerSpec.read_all_spec. Qed.

Lemma stored_app log_type lines1 lines2 :
  stored log_type (lines1 ++ lines2) =
  stored log_type lines1 ++ stored log_type lines2.
Proof. unfold stored. by rewrite List.filter_app, map_app. Qed.

(** The reader threads only append.  After any lines have arrived from
    worker [pid], on either stream and in any interleaving, the record of
    [pid] holds what it held before followed by the stripped lines of each
    stream in arrival order; if [pid] has no record the lines are
    dropped.  The records of other pids and the active-process table are
    not touched.  So two arrival orders that agree on each stream leave
    the same tables. *)
Theorem reader_appends_in_order (pid : Z) (arrived : list (string * string))
    (s : server) :
  let s' := run_calls (log_lines pid arrived) s in
  (active_processes s' = active_processes s
   ∧ process_logs s' !! pid =
     (λ l, {| stdout := stdout l ++ stored "stdout" arrived;
              stderr := stderr l ++ stored "stderr" arrived |})
       <$> process_logs s !! pid
   ∧ delete pid (process_logs s') = delete pid (process_logs s))
  ∧ ∀ arrived',
      stored "stdout" arrived' = stored "stdout" arrived →
      stored "stderr" arrived' = stored "stderr" arrived →
      let s'' := run_calls (log_lines pid arrived') s in
      active_processes s'' = active_processes s'
      ∧ process_logs s'' = process_logs s'.
Proof.
  cbv zeta. split; [apply read_lines_spec|].
  intros arrived' Hout Herr.
  destruct (read_lines_spec pid arrived s) as (Ha & Hl & Hd).
  destruct (read_lines_spec pid arrived' s) as (Ha' & Hl' & Hd').
  cbv zeta in *. split; [congruence|].
  apply map_eq. intros k. destruct (decide (k = pid)) as [->|Hk].
  - rewrite Hl, Hl', Hout, Herr. done.
  - apply (f_equal (λ d, d !! k)) in Hd, Hd'.
    rewrite !lookup_delete_ne in Hd, Hd' by done. congruence.
Qed.

(** *** Calls one after the other *)

(** The logs of a worker outlive it.  After a start has spawned child
    [p], whatever lines arrive from it and however a later stop request
    ends, asking for the logs of [p] returns exactly the stripped lines of
    each stream, in arrival order: the lines read while the start slept,
    then the lines that arrived after it. *)
Theorem logs_survive_stop (e e' : env) (s : server) (p : positive)
    (arrived : list (string * string)) (data : stop_request) :
  Spawn (start_argv e) (SCRIPT_DIR e) ∈ trace_of (Start e) s →
  popen e (start_argv e) (SCRIPT_DIR e) = inr p →
  _get_bot_logs (Some (Z.pos p))
    (run_calls (Start e :: log_lines (Z.pos p) arrived ++ [Stop e' data]) s) =
  respond_200
    [("success", JBool true); ("pid", JInt (Z.pos p));
     ("stdout", JList (stored "stdout" (read_lines e (Z.pos p) ++ arrived)));
     ("stderr", JList (stored "stderr" (read_lines e (Z.pos p) ++ arrived)))].
Proof.
  intros Hspawn Hpopen.
  rewrite run_calls_cons, run_calls_app. simpl run_calls at 1.
  assert (process_logs (after (Start e) s) !! Z.pos p =
          Some {| stdout := stored "stdout" (read_lines e (Z.pos p));
                  stderr := stored "stderr" (read_lines e (Z.pos p)) |})
    as Hnew.
  { pose proof (ServerSpec.handle_start_spawned e s p Hspawn Hpopen) as H.
    cbv zeta in H. unfold after. rewrite H.
    destruct (poll e (Z.pos p)); cbn [fst]; unfold exited;
      rewrite ServerSpec.started_spec; simpl; apply lookup_insert_eq. }
  destruct (read_lines_spec (Z.pos p) arrived (after (Start e) s))
    as (_ & Hlogs & _).
  rewrite Hnew in Hlogs. simpl in Hlogs. rewrite <- !stored_app in Hlogs.
  pose proof (stop_keeps_logs e' data
                (run_calls (log_lines (Z.pos p) arrived) (after (Start e) s)))
    as Hkept.
  unfold _get_bot_logs.
  rewrite (ServerSpec.lookup_truthy_Some _ (Z.pos p) _ ltac:(done)
             (eq_trans (f_equal (λ d, d !! Z.pos p) Hkept) Hlogs)).
  done.
Qed.

Lemma logs_survive_stop_witness :
  _get_bot_logs (Some 4242)
    (run_calls
       (Start MoreExamples.chatty_start
        :: log_lines 4242 [("stdout", "ready");
                           ("stderr", MoreExamples.listening)]
        ++ [Stop Examples.stubborn Examples.stop_4242]) server_init) =
  respond_200 [("success", JBool true); ("pid", JInt 4242);
               ("stdout", JList ["ready"]);
               ("stderr", JList ["INFO starting"; "INFO  listening"])].
Proof.
  apply (logs_survive_stop MoreExamples.chatty_start Examples.stubborn
           server_init 4242
           [("stdout", "ready"); ("stderr", MoreExamples.listening)]
           Examples.stop_4242).
  - vm_compute. repeat constructor.
  - reflexivity.
Defined.

(** *** What holds after every sequence of calls *)

Lemma well_tracked_after c s : well_tracked s → well_tracked (after c s).
Proof.
  intros Hs. destruct c as [e|e data|pid|log_type pid line].
  - unfold after. rewrite ServerSpec.handle_start.
    destruct (port_step e).1 as [ex|u]; [done|].
    destruct (path_exists e (creds_path e)); [|done].
    destruct (path_exists e (env_path e)); [|done].
    cbn [negb]. destruct (popen e _ _) as [ex|p]; [done|].
    assert (well_tracked (started e s (Z.pos p))) as Hstarted.
    { rewrite ServerSpec.started_spec. intros k process. simpl.
      destruct (decide (k = Z.pos p)) as [->|Hk].
      - rewrite !lookup_insert_eq. intros [= <-].
        split; [done|]. split; [lia|by eexists].
      - rewrite !lookup_insert_ne by done. apply Hs. }
    destruct (poll e (Z.pos p)) as [code|]; cbn [fst]; [|done].
    intros k process. unfold exited. cbn [active_processes process_logs].
    pose proof Hstarted as Hstarted'.
    rewrite ServerSpec.started_spec in Hstarted' |- *. simpl.
    destruct (decide (k = Z.pos p)) as [->|Hk].
    + rewrite lookup_alter_eq, !lookup_insert_eq. intros [= <-].
      split; [done|]. split; [lia|by eexists].
    + rewrite lookup_alter_ne by done. apply Hstarted'.
  - destruct (stop_outcome e data s)
      as [[-> _]|(pid & process & _ & _ & _ & _ & -> & _)]; [done|].
    intros k process'. simpl. intros [_ Hk]%lookup_delete_Some. by apply Hs.
  - done.
  - destruct (ServerSpec.read_output_spec log_type pid line s)
      as (Hactive & Hpid & Hrest).
    intros k process.
    change (after (LogLine log_type pid line) s)
      with (read_output log_type pid line s).
    rewrite Hactive. intros Hk. destruct (Hs k process Hk) as (? & ? & Hlog).
    split; [done|]. split; [done|].
    destruct (decide (k = pid)) as [->|Hne].
    + rewrite Hpid. by apply fmap_is_Some.
    + apply (f_equal (λ d, d !! k)) in Hrest.
      rewrite !lookup_delete_ne in Hrest by done. by rewrite Hrest.
Qed.

Lemma well_tracked_run cs s : well_tracked s → well_tracked (run_calls cs s).
Proof.
  revert s. induction cs as [|c cs IH]; intros s Hs; [done|].
  rewrite run_calls_cons. by apply IH, well_tracked_after.
Qed.

Lemma well_tracked_init : well_tracked server_init.
Proof. intros k process. simpl. by rewrite lookup_empty. Qed.

(** After every sequence of starts, stops, log requests and arriving
    lines, every pid in the active-process table is positive, is the pid
    of the [Popen] object stored under it, and has a record in the log
    table. *)
Theorem tables_stay_well_tracked (cs : list call) :
  well_tracked (run_calls cs server_init).
Proof. apply well_tracked_run, well_tracked_init. Qed.

(** So the logs of a tracked worker can always be read: after every
    sequence of calls, a log request naming a tracked pid succeeds. *)
Theorem tracked_worker_has_logs (cs : list call) (pid : Z) :
  is_Some (active_processes (run_calls cs server_init) !! pid) →
  ∃ l, process_logs (run_calls cs server_init) !! pid = Some l
       ∧ _get_bot_logs (Some pid) (run_calls cs server_init) =
         respond_200 [("success", JBool true); ("pid", JInt pid);
                      ("stdout", JList (stdout l)); ("stderr", JList (stderr l))].
Proof.
  intros [process Hpid].
  destruct (well_tracked_run cs _ well_tracked_init pid process Hpid)
    as (_ & Hpos & [l Hl]).
  exists l. split; [done|]. unfold _get_bot_logs.
  by rewrite (ServerSpec.lookup_truthy_Some _ pid l ltac:(lia) Hl).
Qed.

Lemma tracked_worker_has_logs_witness :
  ∃ l, process_logs
         (run_calls [Start Examples.first_start; Start Examples.second_start]
            server_init) !! 4243 = Some l
       ∧ _get_bot_logs (Some 4243)
           (run_calls [Start Examples.first_start; Start Examples.second_start]
              server_init) =
         respond_200 [("success", JBool true); ("pid", JInt 4243);
                      ("stdout", JList (stdout l)); ("stderr", JList (stderr l))].
Proof.
  apply (tracked_worker_has_logs
           [Start Examples.first_start; Start Examples.second_start] 4243).
  eexists. reflexivity.
Defined.

Lemma logs_kept_after c s :
  dom (process_logs s) ⊆ dom (process_logs (after c s)).
Proof.
  destruct c as [e|e data|pid|log_type pid line].
  - unfold after. rewrite ServerSpec.handle_start.
    destruct (port_step e).1 as [ex|u]; [done|].
    destruct (path_exists e (creds_path e)); [|done].
    destruct (path_exists e (env_path e)); [|done].
    cbn [negb]. destruct (popen e _ _) as [ex|p]; [done|].
    destruct (poll e (Z.pos p)); cbn [fst]; unfold exited;
      rewrite ServerSpec.started_spec; simpl; apply dom_insert_subseteq.
  - by rewrite stop_keeps_logs.
  - done.
  - change (after (LogLine log_type pid line) s)
      with (read_output log_type pid line s).
    unfold read_output. destruct (process_logs s !! pid); [|done].
    apply dom_insert_subseteq.
Qed.

(** No call ever removes a log record: along every sequence of calls the
    set of pids that have a record only grows. *)
Theorem log_records_are_never_removed (cs : list call) (s : server) :
  dom (process_logs s) ⊆ dom (process_logs (run_calls cs s)).
Proof.
  revert s. induction cs as [|c cs IH]; intros s; [done|].
  rewrite run_calls_cons. etrans; [apply logs_kept_after|apply IH].
Qed.

End ServerExtra.

(* ===================================================================== *)
(** ** Properties of static files and cleanup                             *)
(* ===================================================================== *)
Module HttpSpec.
Import Server ServerAux Http.

(** *** cleanup *)

Lemma hard_kill_spec e process pid w :
  hard_kill e process pid w =
  ((hard e process pid).2,
   {| srv := srv w; trace := trace w ++ [(hard e process pid).1] |}).
Proof.
  unfold hard_kill, hard, kill_, os_kill_, emit, lift, mbind, M_bind.
  by destruct (String.eqb (platform e) "win32").
Qed.

Lemma cleanup_loop_spec e items w :
  ∃ tr, cleanup_loop e items w =
          (inr tt, {| srv := srv w; trace := trace w ++ tr |})
        ∧ List.filter (λ x, negb (is_Print x)) tr =
          map (λ it, (hard e it.2 it.1).1) items.
Proof.
  revert w. induction items as [|[pid process] items IH]; intros w.
  - exists []. split; [|done]. simpl. unfold mret, M_ret.
    by rewrite ServerSpec.world_eta.
  - simpl cleanup_loop.
    unfold try_except, mbind at 1 2, M_bind at 1 2. rewrite hard_kill_spec.
    assert (is_Print (hard e process pid).1 = false) as Hcall.
    { unfold hard. by destruct (String.eqb (platform e) "win32"). }
    destruct (hard e process pid).2 as [ex|[]];
      unfold print, emit, mret, M_ret; simpl;
      edestruct IH as (tr & -> & Hcalls); simpl;
      eexists (_ :: _); (split; [by rewrite <- !app_assoc|]);
      simpl; rewrite Hcall, ?Hcalls; done.
Qed.

(** [cleanup] never raises and never changes a table.  It tries the hard
    kill once for every worker in the active-process table, in the order
    of the table, whether or not the kills before it were delivered. *)
Theorem cleanup_tries_every_worker (e : env) (s : server)
    (items : list (Z * Popen)) :
  items_of s items →
  ∃ tr, cleanup e items s = (inr tt, s, tr)
        ∧ List.filter (λ x, negb (is_Print x)) tr =
          map (λ it, (hard e it.2 it.1).1) items
        ∧ ∀ pid process,
            active_processes s !! pid = Some process →
            (hard e process pid).1 ∈ tr.
Proof.
  intros Hitems. unfold cleanup.
  destruct (cleanup_loop_spec e items {| srv := s; trace := [] |})
    as (tr & -> & Hcalls).
  exists tr. split; [done|]. split; [done|].
  intros pid process Hpid.
  assert ((pid, process) ∈ items) as Hin.
  { rewrite Hitems. by apply elem_of_map_to_list. }
  assert ((hard e process pid).1 ∈ List.filter (λ x, negb (is_Print x)) tr)
    as Hfiltered.
  { rewrite Hcalls. apply list_elem_of_fmap. by exists (pid, process). }
  apply list_elem_of_In, List.filter_In in Hfiltered as [Hfiltered _].
  by apply list_elem_of_In.
Qed.

Lemma cleanup_tries_every_worker_witness :
  let s := run_calls [Start Examples.first_start; Start Examples.second_start]
             server_init in
  let items := [(4243, {| pid := 4243; returncode := None |});
                (4242, {| pid := 4242; returncode := None |})] in
  ∃ tr, cleanup Examples.child_reaped items s = (inr tt, s, tr)
        ∧ List.filter (λ x, negb (is_Print x)) tr =
          map (λ it, (hard Examples.child_reaped it.2 it.1).1) items
        ∧ ∀ pid process,
            active_processes s !! pid = Some process →
            (hard Examples.child_reaped process pid).1 ∈ tr.
Proof.
  intros s items. apply cleanup_tries_every_worker.
  unfold items_of. vm_compute.
  first [reflexivity | apply perm_swap].
Defined.

(** *** do_GET *)

Lemma list_ascii_app (s1 s2 : string) :
  list_ascii_of_string (s1 +:+ s2) =
  list_ascii_of_string s1 ++ list_ascii_of_string s2.
Proof. induction s1 as [|a s1 IH]; simpl; [done|by rewrite IH]. Qed.

Lemma endswith_app (suffix stem ext : string) :
  endswith suffix (stem +:+ ext) =
  starts_with (rev (list_ascii_of_string suffix))
    (rev (list_ascii_of_string ext) ++ rev (list_ascii_of_string stem)).
Proof. unfold endswith. by rewrite list_ascii_app, rev_app_distr. Qed.

(** The content type of a served file follows from the extension of the
    request path alone: whatever stands before it, a path ending in
    [.html], [.js], [.css], [.json] or [.proto] gets the type of that
    extension (so [.json] is never taken for [.js]).  The request for [/]
    is answered as the request for [/index.html]. *)
Theorem content_type_by_extension (e : env) (read : string → result string)
    (stem : string) :
  content_type (stem +:+ ".html") = "text/html"
  ∧ content_type (stem +:+ ".js") = "application/javascript"
  ∧ content_type (stem +:+ ".css") = "text/css"
  ∧ content_type (stem +:+ ".json") = "application/json"
  ∧ content_type (stem +:+ ".proto") = "application/protobuf"
  ∧ do_GET e read "/" = do_GET e read "/index.html".
Proof.
  unfold content_type. rewrite !endswith_app. simpl.
  repeat split; reflexivity.
Qed.

(** When the file exists but cannot be read, the status line 200 and the
    content type have already gone out: the client is sent the 200 header
    block, then a 500 header block and the text of the error, and no byte
    of the file.  When the file does not exist the answer is the 404 block
    alone. *)
Theorem get_unreadable_file (e : env) (read : string → result string)
    (path : string) (ex : exn) :
  path ≠ "/" →
  let file_to_open := joinpath e (SCRIPT_DIR e) (lstrip "/" path) in
  (path_exists e file_to_open = true → read file_to_open = inl ex →
   do_GET e read path =
     [Send_response 200; Send_header "Content-type" (content_type path);
      End_headers;
      Send_response 500; Send_header "Content-type" "text/html"; End_headers;
      Write ("500 - Server Error: " +:+ str_exn ex)])
  ∧ (path_exists e file_to_open = false →
     do_GET e read path =
       [Send_response 404; Send_header "Content-type" "text/html"; End_headers;
        Write "404 - File Not Found"]).
Proof.
  intros Hpath%String.eqb_neq file_to_open. subst file_to_open.
  unfold do_GET. rewrite Hpath.
  split; [intros -> ->|intros ->]; reflexivity.
Qed.

Lemma get_unreadable_file_witness :
  do_GET Examples.first_start
    (λ _, inl (OtherError "[Errno 21] Is a directory: '/srv/translate/'")) "//" =
    [Send_response 200; Send_header "Content-type" "application/octet-stream";
     End_headers;
     Send_response 500; Send_header "Content-type" "text/html"; End_headers;
     Write "500 - Server Error: [Errno 21] Is a directory: '/srv/translate/'"].
Proof.
  apply (proj1 (get_unreadable_file Examples.first_start
                  (λ _, inl (OtherError
                               "[Errno 21] Is a directory: '/srv/translate/'"))
                  "//" (OtherError "[Errno 21] Is a directory: '/srv/translate/'")
                  ltac:(discriminate))); reflexivity.
Defined.

End HttpSpec.

(* ===================================================================== *)
(** ** Reading what lsof printed                                          *)
(* ===================================================================== *)
Module LsofSpec.
Import Server ServerAux LsofAux.

Lemma digits_of_uint d acc :
  Py.digits acc true (list_ascii_of_string (NilEmpty.string_of_uint d)) =
  Some (horner acc d).
Proof.
  revert acc. induction d; intros acc; simpl; [done|..]; apply IHd.
Qed.

Lemma digits_of_uint_start d acc :
  d ≠ Decimal.Nil →
  Py.digits acc false (list_ascii_of_string (NilEmpty.string_of_uint d)) =
  Some (horner acc d).
Proof. destruct d; intros Hd; [done|..]; simpl; apply digits_of_uint. Qed.

Lemma horner_of_uint_acc d acc :
  Z.pos (Pos.of_uint_acc d acc) = horner (Z.pos acc) d.
Proof.
  revert acc. induction d; intros acc; simpl; [done|..]; rewrite IHd; f_equal; lia.
Qed.

Lemma horner_of_uint d : Z.of_N (Pos.of_uint d) = horner 0 d.
Proof.
  induction d; simpl; [done|done|..]; rewrite horner_of_uint_acc; done.
Qed.

Lemma chars_uint d : Forall is_digit (list_ascii_of_string (NilEmpty.string_of_uint d)).
Proof.
  induction d; simpl; [constructor|..]; (constructor; [|done]);
    unfold is_digit; vm_compute; split; discriminate.
Qed.

Lemma str_of_pos p :
  Py.str_of_int (Z.pos p) = NilEmpty.string_of_uint (Pos.to_uint p).
Proof.
  unfold Py.str_of_int. simpl.
  pose proof (DecimalPos.Unsigned.to_uint_nonnil p) as Hp.
  by destruct (Pos.to_uint p).
Qed.

Lemma chars_digits p : chars p ≠ [] ∧ Forall is_digit (chars p).
Proof.
  unfold chars. rewrite str_of_pos. split; [|apply chars_uint].
  pose proof (DecimalPos.Unsigned.to_uint_nonnil p) as Hp.
  by destruct (Pos.to_uint p).
Qed.

Lemma digit_not_space c : is_digit c → Py.isspace c = false.
Proof. unfold is_digit, Py.isspace. intros H. lia. Qed.

Lemma digit_not_char c (x : ascii) :
  is_digit c → Py.code x < 48 → Ascii.eqb c x = false.
Proof.
  intros Hc Hx. destruct (Ascii.eqb_spec c x) as [->|]; [|done].
  unfold is_digit in Hc. lia.
Qed.

Lemma digit_not_continuation c : is_digit c → Py.is_continuation c = false.
Proof. unfold is_digit, Py.is_continuation. intros H. lia. Qed.

Lemma digits_one_byte_each l : Forall is_digit l → one_byte_each l.
Proof.
  intros Hl. eapply Forall_impl; [exact Hl|].
  intros c. apply digit_not_continuation.
Qed.

(** In text of one-byte characters every byte is a character. *)
Lemma characters_one_byte_each l :
  one_byte_each l → Py.characters l = map (λ c, [c]) l.
Proof.
  induction 1 as [|c l Hc Hl IH]; [done|].
  change (Py.characters (c :: l)) with (Py.push_byte c (Py.characters l)).
  rewrite IH. destruct Hl as [|d l' Hd Hl]; [done|]. simpl. by rewrite Hd.
Qed.

Lemma concat_singletons (l : list ascii) : concat (map (λ c, [c]) l) = l.
Proof. induction l as [|c l IH]; simpl; congruence. Qed.

Lemma lstrip_chars_id cs :
  match cs with ch :: _ => Py.isspace_char ch = false | [] => True end →
  Py.lstrip_chars cs = cs.
Proof. destruct cs as [|ch cs]; [done|]. simpl. by intros ->. Qed.

Lemma strip_chars_edges l :
  one_byte_each l →
  match l with c :: _ => Py.isspace c = false | [] => True end →
  match rev l with c :: _ => Py.isspace c = false | [] => True end →
  Py.strip_chars l = l.
Proof.
  intros Hl Hfirst Hlast. unfold Py.strip_chars.
  rewrite (characters_one_byte_each l Hl).
  rewrite (lstrip_chars_id (map _ l)) by (by destruct l).
  rewrite <- map_rev. rewrite lstrip_chars_id by (by destruct (rev l)).
  rewrite <- map_rev, rev_involutive. apply concat_singletons.
Qed.

Lemma strip_chars_digits l : Forall is_digit l → Py.strip_chars l = l.
Proof.
  intros Hl. apply strip_chars_edges.
  - by apply digits_one_byte_each.
  - destruct l; [done|]. apply Forall_cons in Hl as [Hc _].
    by apply digit_not_space.
  - apply Forall_rev in Hl. destruct (rev l); [done|].
    apply Forall_cons in Hl as [Hc _]. by apply digit_not_space.
Qed.

Lemma int_str p : Py.int (Py.str_of_int (Z.pos p)) = Some (Z.pos p).
Proof.
  unfold Py.int. fold (chars p).
  destruct (chars_digits p) as [Hne Hdigits].
  rewrite strip_chars_digits by done.
  destruct (chars p) as [|c r] eqn:Hchars; [done|].
  pose proof Hdigits as [Hc _]%Forall_cons.
  rewrite (digit_not_char c "-"), (digit_not_char c "+") by (done || (vm_compute; done)).
  rewrite <- Hchars. unfold chars. rewrite str_of_pos.
  rewrite digits_of_uint_start by apply DecimalPos.Unsigned.to_uint_nonnil.
  by rewrite <- horner_of_uint, DecimalPos.Unsigned.of_to.
Qed.

Lemma lsof_output_joined p ps :
  list_ascii_of_string (lsof_output (p :: ps)) =
  list_ascii_of_string (join_lines p ps) ++ [Py.newline].
Proof.
  revert p. induction ps as [|q qs IH]; intros p.
  - simpl. by rewrite HttpSpec.list_ascii_app.
  - change (lsof_output (p :: q :: qs))
      with (Py.str_of_int (Z.pos p) +:+ String Py.newline (lsof_output (q :: qs))).
    simpl join_lines. rewrite !HttpSpec.list_ascii_app.
    cbn [list_ascii_of_string]. rewrite IH.
    by rewrite <- app_assoc.
Qed.

Lemma edge_ok_chars p : edge_ok (chars p).
Proof.
  destruct (chars_digits p) as [Hne Hdigits]. split.
  - destruct (chars p) as [|c r]; [done|].
    apply Forall_cons in Hdigits as [Hc _]. by apply digit_not_space.
  - apply Forall_rev in Hdigits.
    destruct (rev (chars p)) as [|c r] eqn:Hrev.
    + apply (f_equal (@rev _)) in Hrev. rewrite rev_involutive in Hrev. done.
    + apply Forall_cons in Hdigits as [Hc _]. by apply digit_not_space.
Qed.

Lemma edge_ok_line l1 l2 :
  edge_ok l1 → edge_ok l2 → edge_ok (l1 ++ Py.newline :: l2).
Proof.
  intros [H1 _] [_ H2]. split.
  - by destruct l1.
  - change (Py.newline :: l2) with ([Py.newline] ++ l2).
    rewrite !rev_app_distr. by destruct (rev l2).
Qed.

Lemma edge_ok_joined p ps : edge_ok (list_ascii_of_string (join_lines p ps)).
Proof.
  revert p. induction ps as [|q qs IH]; intros p; simpl.
  - apply edge_ok_chars.
  - rewrite HttpSpec.list_ascii_app. simpl. apply edge_ok_line; [apply edge_ok_chars|apply IH].
Qed.

Lemma one_byte_each_joined p ps :
  one_byte_each (list_ascii_of_string (join_lines p ps)).
Proof.
  revert p. induction ps as [|q qs IH]; intros p; simpl.
  - apply digits_one_byte_each, chars_digits.
  - rewrite HttpSpec.list_ascii_app. apply Forall_app. split.
    + apply digits_one_byte_each, chars_digits.
    + constructor; [done|apply IH].
Qed.

Lemma strip_trailing_newline l :
  one_byte_each l → edge_ok l → Py.strip_chars (l ++ [Py.newline]) = l.
Proof.
  intros Hl [Hhead Hlast]. unfold Py.strip_chars.
  rewrite characters_one_byte_each
    by (apply Forall_app; split; [done|by constructor]).
  rewrite map_app. cbn [map].
  rewrite (lstrip_chars_id (map _ l ++ _)) by (by destruct l).
  rewrite rev_app_distr. cbn [rev app].
  change (Py.lstrip_chars ([Py.newline] :: ?r)) with (Py.lstrip_chars r).
  rewrite <- map_rev. rewrite lstrip_chars_id by (by destruct (rev l)).
  rewrite <- map_rev, rev_involutive. apply concat_singletons.
Qed.

Lemma strip_lsof_output p ps :
  Py.strip (lsof_output (p :: ps)) = join_lines p ps.
Proof.
  unfold Py.strip. rewrite lsof_output_joined.
  rewrite strip_trailing_newline
    by (apply one_byte_each_joined || apply edge_ok_joined).
  apply string_of_list_ascii_of_string.
Qed.

Lemma split_line (line rest : string) :
  Forall (λ c, Ascii.eqb c Py.newline = false) (list_ascii_of_string line) →
  Py.split Py.newline line = [line]
  ∧ Py.split Py.newline (line +:+ String Py.newline rest) =
    line :: Py.split Py.newline rest.
Proof.
  induction line as [|c line IH]; simpl; intros Hline.
  - split; reflexivity.
  - apply Forall_cons in Hline as [-> Hline].
    destruct (IH Hline) as [-> ->]. done.
Qed.

Lemma str_no_newline p :
  Forall (λ c, Ascii.eqb c Py.newline = false) (chars p).
Proof.
  destruct (chars_digits p) as [_ Hdigits].
  eapply Forall_impl; [exact Hdigits|]. intros c Hc.
  apply digit_not_char; [done|]. vm_compute. done.
Qed.

Lemma split_joined p ps :
  Py.split Py.newline (join_lines p ps) =
  map (λ p, Py.str_of_int (Z.pos p)) (p :: ps).
Proof.
  revert p. induction ps as [|q qs IH]; intros p; simpl.
  - apply (split_line _ ""), str_no_newline.
  - destruct (split_line (Py.str_of_int (Z.pos p)) (join_lines q qs)
                (str_no_newline p)) as [_ ->].
    by rewrite IH.
Qed.

Lemma lsof_output_lines p ps :
  Py.truthy_str (lsof_output (p :: ps)) = true
  ∧ Forall2 (λ line n, Py.int line = Some n)
      (Py.split Py.newline (Py.strip (lsof_output (p :: ps))))
      (map Z.pos (p :: ps)).
Proof.
  split.
  - change (lsof_output (p :: ps))
      with (Py.str_of_int (Z.pos p) +:+ String Py.newline (lsof_output ps)).
    destruct (chars_digits p) as [Hne _]. unfold chars in Hne.
    by destruct (Py.str_of_int (Z.pos p)).
  - rewrite strip_lsof_output, split_joined.
    generalize (p :: ps). intros l. induction l as [|q l IH]; simpl; [constructor|].
    constructor; [apply int_str|done].
Qed.

(** When the port is bound and [lsof] prints pids, one to a line, a start
    on a POSIX host sends [SIGKILL] to exactly these pids, in the order
    printed, going on past pids that are already gone; then it pauses one
    second and turns to the file checks. *)
Theorem start_kills_what_lsof_prints (e : env) (s : server) (p : positive)
    (ps : list positive) :
  connect_ex e "localhost" 8765 = 0 →
  String.eqb (platform e) "win32" = false →
  subprocess_run e ["lsof"; "-ti"; ":8765"] = inr (lsof_output (p :: ps)) →
  Forall (λ q, os_kill e (Z.pos q) SIGKILL = inr tt ∨
               ∃ msg, os_kill e (Z.pos q) SIGKILL = inl (ProcessLookupError msg))
    (p :: ps) →
  ∃ rest,
    List.filter (λ x, negb (is_Print x)) (trace_of (Start e) s) =
    [Connect_ex "localhost" 8765; Run ["lsof"; "-ti"; ":8765"]] ++
    map (λ q, Os_kill (Z.pos q) SIGKILL) (p :: ps) ++
    Sleep 1 :: Exists (creds_path e) :: rest.
Proof.
  intros Hbound Hposix Hlsof Hkills.
  destruct (lsof_output_lines p ps) as [Htruthy Hlines].
  destruct (ServerSpec.port_step_lsof e (lsof_output (p :: ps))
              (map Z.pos (p :: ps)) Hbound Hposix Hlsof Htruthy Hlines)
    as [Hreturns Hcalls].
  { apply Forall_fmap. eapply Forall_impl; [exact Hkills|]. by intros q. }
  pose proof (ServerSpec.start_after_port_step e s) as Hnext.
  rewrite Hreturns in Hnext. destruct Hnext as [rest ->].
  exists (List.filter (λ x, negb (is_Print x)) rest).
  rewrite List.filter_app, Hcalls. rewrite map_map.
  cbn [List.filter is_Print negb]. rewrite <- !app_assoc. reflexivity.
Qed.

Lemma start_kills_what_lsof_prints_witness :
  ∃ rest,
    List.filter (λ x, negb (is_Print x))
      (trace_of (Start Examples.second_start_port_bound)
         (after (Start Examples.first_start) server_init)) =
    [Connect_ex "localhost" 8765; Run ["lsof"; "-ti"; ":8765"]] ++
    map (λ q, Os_kill (Z.pos q) SIGKILL) [4242%positive] ++
    Sleep 1 :: Exists (creds_path Examples.second_start_port_bound) :: rest.
Proof.
  apply (start_kills_what_lsof_prints Examples.second_start_port_bound
           (after (Start Examples.first_start) server_init) 4242 []).
  - reflexivity.
  - reflexivity.
  - reflexivity.
  - repeat constructor.
Defined.

End LsofSpec.

(* ===================================================================== *)
(** ** Properties of check_status.py                                      *)
(* ===================================================================== *)
Module CheckStatusSpec.
Import CheckStatus.

Lemma characters_groups l :
  Forall is_character (Py.characters l)
  ∧ Forall starts_character (tail (Py.characters l)).
Proof.
  induction l as [|c l [IH1 IH2]]; [by split|].
  change (Py.characters (c :: l)) with (Py.push_byte c (Py.characters l)).
  unfold Py.push_byte.
  destruct (Py.characters l) as [|[|d ds] rest]; simpl in *.
  - split; repeat constructor.
  - by apply Forall_cons in IH1 as [[] _].
  - apply Forall_cons in IH1 as [Hd Hrest].
    destruct (Py.is_continuation d) eqn:Hcont; simpl.
    + split; [|done]. constructor; [by constructor|done].
    + split; [|by constructor]. constructor; [constructor|by constructor].
Qed.

(** Continuation bytes in front of a text whose first byte starts a
    character stand as a group of their own. *)
Lemma characters_after r l :
  Forall (λ d, Py.is_continuation d = true) r →
  match Py.characters l with g :: _ => starts_character g | [] => True end →
  Py.characters (r ++ l) =
  match r with [] => Py.characters l | _ => r :: Py.characters l end.
Proof.
  intros Hr Hl. induction Hr as [|d r Hd Hr IH]; [done|].
  change (Py.characters ((d :: r) ++ l))
    with (Py.push_byte d (Py.characters (r ++ l))).
  rewrite IH. destruct Hr as [|d' r' Hd' Hr].
  - unfold Py.push_byte.
    destruct (Py.characters l) as [|[|e es] rest]; [done|done|].
    simpl in Hl. by rewrite Hl.
  - simpl. by rewrite Hd'.
Qed.

(** Characters put one behind the other are read back as they were. *)
Lemma characters_concat gs :
  Forall is_character gs → Forall starts_character (tail gs) →
  Py.characters (concat gs) = gs.
Proof.
  induction gs as [|g gs IH]; [done|]. simpl.
  intros [Hg Hgs]%Forall_cons Hstart.
  assert (Py.characters (concat gs) = gs) as Hrest.
  { apply IH; [done|]. destruct Hstart; [done|]. done. }
  destruct g as [|c r]; [done|]. simpl in Hg.
  change (Py.characters ((c :: r) ++ concat gs))
    with (Py.push_byte c (Py.characters (r ++ concat gs))).
  rewrite characters_after, Hrest; [|done|].
  - destruct Hg as [|d r' Hd Hr].
    + unfold Py.push_byte. destruct Hstart as [|[|e es] gs' He _]; [done|done|].
      simpl in He. by rewrite He.
    + simpl. by rewrite Hd.
  - rewrite Hrest. by destruct Hstart.
Qed.

Lemma chars_masked_key openai_key :
  let key := Py.characters (list_ascii_of_string openai_key) in
  list_ascii_of_string (masked_key openai_key) =
  concat (take 6 key ++ dots ++ drop (length key - 4) key).
Proof.
  unfold masked_key, first_chars, last_chars. cbv zeta.
  rewrite !HttpSpec.list_ascii_app, !list_ascii_of_string_of_list_ascii.
  by rewrite !concat_app.
Qed.

(** The line that reports the key shows its first six and its last four
    characters around three dots.  A key of ten characters or more is
    printed as thirteen characters that leave out everything between the
    two ends; of a key of at most ten characters nothing is left out: the
    whole key can be read off the line. *)
Theorem masked_key_hides_only_long_keys (openai_key : string) :
  Py.truthy_str openai_key = true →
  openai_key ≠ "your_openai_api_key_here" →
  let key := Py.characters (list_ascii_of_string openai_key) in
  let shown_first := take 6 key in
  let shown_last := drop (length key - 4) key in
  check_env_file true (Some openai_key) =
    [ "✅ .env file found";
      "✅ OPENAI_API_KEY found: " +:+ masked_key openai_key ]
  ∧ list_ascii_of_string (masked_key openai_key) =
    concat shown_first ++ list_ascii_of_string "..." ++ concat shown_last
  ∧ (length key ≤ 10 → ∃ n, key = shown_first ++ drop n shown_last)%nat
  ∧ (10 ≤ length key →
     ∃ hidden,
       key = shown_first ++ hidden ++ shown_last
       ∧ length hidden = length key - 10
       ∧ Py.characters (list_ascii_of_string (masked_key openai_key)) =
         shown_first ++ dots ++ shown_last
       ∧ length (Py.characters (list_ascii_of_string (masked_key openai_key)))
         = 13)%nat.
Proof.
  intros Htruthy Hdefault%String.eqb_neq key shown_first shown_last.
  pose proof (chars_masked_key openai_key) as Hmasked. cbv zeta in Hmasked.
  fold key in Hmasked. subst shown_first shown_last.
  split; [|split; [|split]].
  - unfold check_env_file. simpl. by rewrite Htruthy, Hdefault.
  - rewrite Hmasked, !concat_app. done.
  - intros Hshort. exists (6 - (length key - 4))%nat.
    rewrite drop_drop.
    replace (length key - 4 + (6 - (length key - 4)))%nat with 6%nat by lia.
    by rewrite take_drop.
  - intros Hlong. exists (take (length key - 10) (drop 6 key)).
    assert (Py.characters (list_ascii_of_string (masked_key openai_key)) =
            take 6 key ++ dots ++ drop (length key - 4) key) as Hread.
    { rewrite Hmasked.
      destruct (characters_groups (list_ascii_of_string openai_key))
        as [Hgroups Hstart]. fold key in Hgroups, Hstart.
      destruct key as [|g key']; [simpl in Hlong; lia|].
      simpl in Hstart, Hlong.
      replace (length (g :: key') - 4)%nat with (S (length key' - 4))
        by (simpl; lia).
      apply Forall_cons in Hgroups as [Hg Hgroups].
      change (take 6 (g :: key')) with (g :: take 5 key').
      change (drop (S (length key' - 4)) (g :: key'))
        with (drop (length key' - 4) key').
      apply characters_concat; cbn [app tail].
      - constructor; [done|]. rewrite !Forall_app.
        split; [by apply Forall_take|].
        split; [|by apply Forall_drop].
        unfold dots. repeat constructor.
      - rewrite !Forall_app.
        split; [by apply Forall_take|].
        split; [|by apply Forall_drop].
        unfold dots. repeat constructor. }
    split; [|split; [|split]].
    + replace (length key - 4)%nat with (6 + (length key - 10))%nat by lia.
      by rewrite <- drop_drop, !take_drop.
    + rewrite length_take, length_drop. lia.
    + exact Hread.
    + rewrite Hread, !length_app, length_take, length_drop.
      change (length dots) with 3%nat. lia.
Qed.

Lemma masked_key_hides_only_long_keys_witness :
  check_env_file true (Some "sk-ñ2345") =
    [ "✅ .env file found"; "✅ OPENAI_API_KEY found: sk-ñ23...2345" ]
  ∧ ∃ n, Py.characters (list_ascii_of_string "sk-ñ2345") =
         Py.characters (list_ascii_of_string "sk-ñ23") ++
         drop n (Py.characters (list_ascii_of_string "2345")).
Proof.
  destruct (masked_key_hides_only_long_keys "sk-ñ2345" eq_refl
              ltac:(discriminate)) as (Hline & _ & Hshort & _).
  split; [exact Hline|]. apply Hshort. simpl. lia.
Defined.

End CheckStatusSpec.
